(** * OptiRead: the action orchestrator of [App]

    A shallow embedding of the React component [App] (the orchestrator of the
    describe / identify-person / ask / live actions), of [types.ts] and of
    [constants.ts].

    How the component is read:
    - the values a render binds with [useState] and the values the
      [useSpeechRecognition] hook returns form a [Render]; every callback made
      by [useCallback] closes over the [Render] in which it was created, so a
      handler READS from its render [r] and WRITES through the state setters
      into the current state of the [World];
    - [isCancelledRef] and [webcamRef] are mutable cells: they are read and
      written in the [World], never through a render;
    - a handler is a computation in the monad [M] (state passing over the
      [World] plus the log of the calls made on the collaborators: speech,
      recognition, remote model, live service, console);
    - an [await] parks the rest of the async function, with the render it
      closes over, in the list [pending] of the world; the environment settles
      it later with an [Outcome];
    - after every event React renders again and runs the effects whose
      dependencies have changed ([commit]);
    - timers run on a logical clock that counts milliseconds;
    - the collaborators that are not part of the component (the recognition
      hook, the speech and remote services, the live service, the camera) are
      the environment: their answers are events. *)
From Stdlib Require Import String Ascii List Bool Arith Lia QArith.
Import ListNotations.
Local Open Scope string_scope.
Local Open Scope nat_scope.

(** ** types.ts and constants.ts *)

Record RememberedPerson := mkPerson {
  name : string;
  imageBase64 : string
}.

Inductive Voice := Kore | Puck | Charon | Zephyr | Fenrir.

(** [languageName] is the field [name] of [LanguageOption]. *)
Record LanguageOption := mkLanguage {
  code : string;
  languageName : string;
  voice : Voice
}.

Definition LANGUAGES : list LanguageOption :=
  [ mkLanguage "en-US" "English (US)" Zephyr;
    mkLanguage "en-GB" "English (UK)" Puck;
    mkLanguage "es-ES" "Spanish" Charon;
    mkLanguage "hi-IN" "Hindi" Kore;
    mkLanguage "kn-IN" "Kannada" Fenrir;
    mkLanguage "te-IN" "Telugu" Zephyr ].

(** ** JavaScript strings

    A character of a Rocq string stands for one UTF-16 code unit below 256.
    Among those, the code units that [String.prototype.trim] removes
    (WhiteSpace and LineTerminator) are TAB, LF, VT, FF, CR, SP and NBSP. *)
Definition isWhiteSpace (c : ascii) : bool :=
  let n := nat_of_ascii c in
  (n =? 9) || (n =? 10) || (n =? 11) || (n =? 12) || (n =? 13)
  || (n =? 32) || (n =? 160).

Fixpoint trimStart (s : string) : string :=
  match s with
  | EmptyString => EmptyString
  | String c s' => if isWhiteSpace c then trimStart s' else s
  end.

Fixpoint trimEnd (s : string) : string :=
  match s with
  | EmptyString => EmptyString
  | String c s' =>
      match trimEnd s' with
      | EmptyString => if isWhiteSpace c then EmptyString else String c EmptyString
      | t => String c t
      end
  end.

Definition trim (s : string) : string := trimEnd (trimStart s).

(** Truthiness of a string: every string but the empty one. *)
Definition truthy (s : string) : bool := negb (s =? "")%string.

(** Truthiness of a [string | null]. *)
Definition truthy_opt (f : option string) : bool :=
  match f with
  | Some s => truthy s
  | None => false
  end.

(** The double quote, for template literals that contain one. *)
Definition dquote : string := String (ascii_of_nat 34) EmptyString.

(** ** Equality tests ([===] and the comparison of dependencies) *)

Definition Voice_eqb (a b : Voice) : bool :=
  match a, b with
  | Kore, Kore | Puck, Puck | Charon, Charon | Zephyr, Zephyr | Fenrir, Fenrir => true
  | _, _ => false
  end.

Definition action_eqb (a b : option string) : bool :=
  match a, b with
  | Some x, Some y => (x =? y)%string
  | None, None => true
  | _, _ => false
  end.

(** ** The state of a render *)

Record Render := mkRender {
  isOnline : bool;
  speechSpeed : Q;
  language : LanguageOption;
  isProcessing : bool;
  currentAction : option string;
  rememberedPeople : list RememberedPerson;
  isLive : bool;
  showRememberModal : bool;
  frameToRemember : option string;
  (* what [useSpeechRecognition] returns *)
  isListening : bool;
  transcript : string
}.

Definition with_isOnline (v : bool) (r : Render) : Render :=
  mkRender v (speechSpeed r) (language r) (isProcessing r) (currentAction r)
    (rememberedPeople r) (isLive r) (showRememberModal r) (frameToRemember r)
    (isListening r) (transcript r).

Definition with_speechSpeed (v : Q) (r : Render) : Render :=
  mkRender (isOnline r) v (language r) (isProcessing r) (currentAction r)
    (rememberedPeople r) (isLive r) (showRememberModal r) (frameToRemember r)
    (isListening r) (transcript r).

Definition with_language (v : LanguageOption) (r : Render) : Render :=
  mkRender (isOnline r) (speechSpeed r) v (isProcessing r) (currentAction r)
    (rememberedPeople r) (isLive r) (showRememberModal r) (frameToRemember r)
    (isListening r) (transcript r).

Definition with_isProcessing (v : bool) (r : Render) : Render :=
  mkRender (isOnline r) (speechSpeed r) (language r) v (currentAction r)
    (rememberedPeople r) (isLive r) (showRememberModal r) (frameToRemember r)
    (isListening r) (transcript r).

Definition with_currentAction (v : option string) (r : Render) : Render :=
  mkRender (isOnline r) (speechSpeed r) (language r) (isProcessing r) v
    (rememberedPeople r) (isLive r) (showRememberModal r) (frameToRemember r)
    (isListening r) (transcript r).

Definition with_rememberedPeople (v : list RememberedPerson) (r : Render) : Render :=
  mkRender (isOnline r) (speechSpeed r) (language r) (isProcessing r)
    (currentAction r) v (isLive r) (showRememberModal r) (frameToRemember r)
    (isListening r) (transcript r).

Definition with_isLive (v : bool) (r : Render) : Render :=
  mkRender (isOnline r) (speechSpeed r) (language r) (isProcessing r)
    (currentAction r) (rememberedPeople r) v (showRememberModal r)
    (frameToRemember r) (isListening r) (transcript r).

Definition with_showRememberModal (v : bool) (r : Render) : Render :=
  mkRender (isOnline r) (speechSpeed r) (language r) (isProcessing r)
    (currentAction r) (rememberedPeople r) (isLive r) v (frameToRemember r)
    (isListening r) (transcript r).

Definition with_frameToRemember (v : option string) (r : Render) : Render :=
  mkRender (isOnline r) (speechSpeed r) (language r) (isProcessing r)
    (currentAction r) (rememberedPeople r) (isLive r) (showRememberModal r) v
    (isListening r) (transcript r).

Definition with_recognition (l : bool) (t : string) (r : Render) : Render :=
  mkRender (isOnline r) (speechSpeed r) (language r) (isProcessing r)
    (currentAction r) (rememberedPeople r) (isLive r) (showRememberModal r)
    (frameToRemember r) l t.

(** ** Calls on the collaborators *)

Inductive Effect :=
| Speak (text : string) (v : Voice) (rate : Q)        (* ttsService.speak *)
| StopSpeech                                          (* ttsService.stopSpeech *)
| StartListening                                      (* hook: startListening *)
| StopListening                                       (* hook: stopListening *)
| DescribeScene (frame : string) (lang : string)      (* geminiService *)
| DescribePerson (frame : string) (people : list RememberedPerson) (lang : string)
| AskWithContext (frame : option string) (question : string) (lang : string)
| LiveStart (v : Voice)                               (* liveService.start *)
| LiveStop                                            (* liveService.stop *)
| SendVideoFrame (frame : string)                     (* liveService.sendVideoFrame *)
| ConsoleError (msg : string).

(** ** Suspended computations *)

(** Where [processAndSpeak] is suspended: on [await action], on the
    [await speak] of the [try] block, or on the [await speak] of the [catch]
    block. *)
Inductive Stage := AwaitAction | AwaitSpeak | AwaitApology.

Inductive Pending :=
| PProcessAndSpeak (r : Render) (actionType : string) (st : Stage)
| PLiveStop                  (* handleLive, on [await liveService.stop()] *)
| PLiveStart (r : Render)    (* handleLive, on [await liveService.start(...)] *)
| POnClose.                  (* the [onClose] callback given to the live service *)

Inductive Outcome := Fulfilled (value : string) | Rejected.

(** ** The world *)

Record World := mkWorld {
  ui : Render;                  (* the current React state and hook output *)
  isCancelledRef : bool;        (* isCancelledRef.current *)
  webcam : option string;       (* what captureFrame() returns at this moment *)
  clock : nat;                  (* milliseconds *)
  timeouts : list nat;          (* due times of the setTimeout callbacks *)
  intervalId : option nat;      (* next due time of the live interval, if set *)
  pending : list Pending
}.

Definition M (A : Type) : Type := World -> A * World * list Effect.

Definition ret {A} (a : A) : M A := fun w => (a, w, []).

Definition bind {A B} (m : M A) (k : A -> M B) : M B :=
  fun w =>
    let '(a, w1, e1) := m w in
    let '(b, w2, e2) := k a w1 in
    (b, w2, (e1 ++ e2)%list).

Declare Scope orchestrator_scope.
Delimit Scope orchestrator_scope with orch.
Notation "x <- m ;; k" := (bind m (fun x => k))
  (at level 61, m at next level, right associativity) : orchestrator_scope.
Notation "m ;; k" := (bind m (fun _ => k))
  (at level 61, right associativity) : orchestrator_scope.
Local Open Scope orchestrator_scope.

Definition emit (e : Effect) : M unit := fun w => (tt, w, [e]).

Definition when (b : bool) (m : M unit) : M unit := if b then m else ret tt.

Definition exec (m : M unit) (w : World) : World := snd (fst (m w)).
Definition calls (m : M unit) (w : World) : list Effect := snd (m w).

Definition modify_ui (f : Render -> Render) : M unit :=
  fun w => (tt, mkWorld (f (ui w)) (isCancelledRef w) (webcam w) (clock w)
                  (timeouts w) (intervalId w) (pending w), []).

Definition setIsOnline v := modify_ui (with_isOnline v).
Definition setSpeechSpeed v := modify_ui (with_speechSpeed v).
Definition setLanguage v := modify_ui (with_language v).
Definition setIsProcessing v := modify_ui (with_isProcessing v).
Definition setCurrentAction v := modify_ui (with_currentAction v).
Definition setIsLive v := modify_ui (with_isLive v).
Definition setShowRememberModal v := modify_ui (with_showRememberModal v).
Definition setFrameToRemember v := modify_ui (with_frameToRemember v).

(** [setRememberedPeople(prev => ...)]: the updater receives the current
    state, not the state of the render. *)
Definition setRememberedPeople (f : list RememberedPerson -> list RememberedPerson) : M unit :=
  modify_ui (fun s => with_rememberedPeople (f (rememberedPeople s)) s).

Definition set_isCancelledRef (v : bool) : M unit :=
  fun w => (tt, mkWorld (ui w) v (webcam w) (clock w) (timeouts w)
                  (intervalId w) (pending w), []).

Definition get_isCancelledRef : M bool := fun w => (isCancelledRef w, w, []).

(** [setTimeout(cb, ms)]; the only callback so registered lowers the
    cancellation flag. *)
Definition setTimeout (ms : nat) : M unit :=
  fun w => (tt, mkWorld (ui w) (isCancelledRef w) (webcam w) (clock w)
                  (timeouts w ++ [clock w + ms])%list (intervalId w) (pending w), []).

Definition set_intervalId (v : option nat) : M unit :=
  fun w => (tt, mkWorld (ui w) (isCancelledRef w) (webcam w) (clock w)
                  (timeouts w) v (pending w), []).

(** [await]: park the rest of the async function. *)
Definition await (p : Pending) : M unit :=
  fun w => (tt, mkWorld (ui w) (isCancelledRef w) (webcam w) (clock w)
                  (timeouts w) (intervalId w) (pending w ++ [p])%list, []).

(** A callback handed to a collaborator waits in the same list. *)
Definition register (p : Pending) : M unit := await p.

(** [setInterval(cb, ms)] and [clearInterval(id)]; the only interval of the
    component is the one of the live feed. *)
Definition setInterval (ms : nat) : M unit :=
  fun w => set_intervalId (Some (clock w + ms)) w.

Definition clearInterval : M unit := set_intervalId None.

Definition speak (text : string) (v : Voice) (rate : Q) : M unit :=
  emit (Speak text v rate).

(** ** The component *)

(** [captureFrame]: the encoded frame, or [null] when the video element is
    not ready or no 2d context is available. *)
Definition captureFrame : M (option string) := fun w => (webcam w, w, []).

(** [if (frame) { ... }] *)
Definition if_frame (frame : option string) (k : string -> M unit) : M unit :=
  match frame with
  | Some f => if truthy f then k f else ret tt
  | None => ret tt
  end.

Definition handleStop (r : Render) : M unit :=
  set_isCancelledRef true ;;
  emit StopSpeech ;;
  when (isListening r) (emit StopListening) ;;
  when (isLive r) (emit LiveStop ;; setIsLive false) ;;
  when (showRememberModal r) (setShowRememberModal false) ;;
  setIsProcessing false ;;
  setCurrentAction None ;;
  setTimeout 100.

Definition errorMessage : string := "Sorry, I encountered an error. Please try again.".

(** [processAndSpeak] up to [await action]; the remote call itself was made
    by the caller when it evaluated the argument. *)
Definition processAndSpeak (r : Render) (actionType : string) : M unit :=
  set_isCancelledRef false ;;
  setIsProcessing true ;;
  setCurrentAction (Some actionType) ;;
  await (PProcessAndSpeak r actionType AwaitAction).

(** The [finally] block. *)
Definition processAndSpeak_finally (r : Render) (actionType : string) : M unit :=
  when (action_eqb (currentAction r) (Some actionType))
    (setIsProcessing false ;; setCurrentAction None).

(** The [catch] block. *)
Definition processAndSpeak_catch (r : Render) (actionType : string) : M unit :=
  c <- get_isCancelledRef ;;
  if c then processAndSpeak_finally r actionType
  else
    emit (ConsoleError "An error occurred:") ;;
    speak errorMessage (voice (language r)) (speechSpeed r) ;;
    await (PProcessAndSpeak r actionType AwaitApology).

(** The rest of [processAndSpeak] once the awaited promise settles. *)
Definition processAndSpeak_resume (r : Render) (actionType : string)
    (st : Stage) (o : Outcome) : M unit :=
  match st, o with
  | AwaitAction, Fulfilled responseText =>
      c <- get_isCancelledRef ;;
      if c then processAndSpeak_finally r actionType
      else
        speak responseText (voice (language r)) (speechSpeed r) ;;
        await (PProcessAndSpeak r actionType AwaitSpeak)
  | AwaitAction, Rejected => processAndSpeak_catch r actionType
  | AwaitSpeak, Fulfilled _ => processAndSpeak_finally r actionType
  | AwaitSpeak, Rejected => processAndSpeak_catch r actionType
  | AwaitApology, _ => processAndSpeak_finally r actionType
  end.

Definition handleDescribe (r : Render) : M unit :=
  if action_eqb (currentAction r) (Some "describe") then handleStop r
  else if isProcessing r then ret tt
  else
    frame <- captureFrame ;;
    if_frame frame (fun frame =>
      speak "Analyzing the scene..." (voice (language r)) (speechSpeed r) ;;
      emit (DescribeScene frame (languageName (language r))) ;;
      processAndSpeak r "describe").

Definition handlePerson (r : Render) : M unit :=
  if action_eqb (currentAction r) (Some "person") then handleStop r
  else if isProcessing r then ret tt
  else
    frame <- captureFrame ;;
    if_frame frame (fun frame =>
      speak "Looking for a person..." (voice (language r)) (speechSpeed r) ;;
      emit (DescribePerson frame (rememberedPeople r) (languageName (language r))) ;;
      processAndSpeak r "person").

Definition handleRemember (r : Render) : M unit :=
  if isProcessing r then ret tt
  else
    frame <- captureFrame ;;
    if_frame frame (fun frame =>
      setFrameToRemember (Some frame) ;;
      setShowRememberModal true).

Definition handleSavePerson (r : Render) (name : string) : M unit :=
  when (truthy (trim name))
    (if_frame (frameToRemember r) (fun frameToRemember =>
       setRememberedPeople (fun prev => (prev ++ [mkPerson (trim name) frameToRemember])%list) ;;
       speak ("I'll remember " ++ trim name ++ ".")
         (voice (language r)) (speechSpeed r))) ;;
  setShowRememberModal false ;;
  setFrameToRemember None.

Definition handleAsk (r : Render) : M unit :=
  if action_eqb (currentAction r) (Some "ask") then handleStop r
  else if isListening r then emit StopListening
  else if negb (isProcessing r) then
    speak "Listening..." (voice (language r)) (speechSpeed r) ;;
    emit StartListening
  else ret tt.

(** The effect with dependencies [isListening, transcript, captureFrame,
    processAndSpeak, language.name, language.voice, speechSpeed]. *)
Definition askEffect (r : Render) : M unit :=
  when (negb (isListening r) && truthy (transcript r))
    (frame <- captureFrame ;;
     speak ("Asking: " ++ dquote ++ transcript r ++ dquote)
       (voice (language r)) (speechSpeed r) ;;
     emit (AskWithContext frame (transcript r) (languageName (language r))) ;;
     processAndSpeak r "ask").

(** The [onClose] callback handed to [liveService.start]. *)
Definition onClose : M unit :=
  setIsLive false ;;
  setCurrentAction None.

(** [handleLive] up to its [await]. *)
Definition handleLive (r : Render) : M unit :=
  if isLive r then
    emit LiveStop ;;
    await PLiveStop
  else
    handleStop r ;;
    setCurrentAction (Some "live") ;;
    setIsLive true ;;
    emit (LiveStart (voice (language r))) ;;
    register POnClose ;;
    await (PLiveStart r).

(** [handleLive] after [await liveService.stop()]; a rejection leaves the
    async function through no handler. *)
Definition handleLive_stopped (o : Outcome) : M unit :=
  match o with
  | Fulfilled _ => setIsLive false ;; setCurrentAction None
  | Rejected => ret tt
  end.

(** [handleLive] after [await liveService.start(...)]: the end of the [try]
    block, or the [catch] block. *)
Definition handleLive_started (r : Render) (o : Outcome) : M unit :=
  match o with
  | Fulfilled _ => ret tt
  | Rejected =>
      emit (ConsoleError "Failed to start live service") ;;
      setIsLive false ;;
      setCurrentAction None ;;
      speak "Could not start live mode." (voice (language r)) (speechSpeed r)
  end.

(** The callback of the live interval. *)
Definition liveTick : M unit :=
  frame <- captureFrame ;;
  if_frame frame (fun frame => emit (SendVideoFrame frame)).

(** The effect with dependencies [isLive, captureFrame], and its cleanup. *)
Definition liveFeedEffect (r : Render) : M unit :=
  when (isLive r) (setInterval 500).

Definition liveFeedCleanup : M unit := clearInterval.

(** ** The runtime: commits, timers and events *)

(** React compares the dependencies of an effect between two renders.
    [processAndSpeak] is itself rebuilt when [language.voice], [speechSpeed]
    or [currentAction] change; [captureFrame] never is. *)
Definition same_ask_deps (a b : Render) : bool :=
  Bool.eqb (isListening a) (isListening b)
  && (transcript a =? transcript b)%string
  && (languageName (language a) =? languageName (language b))%string
  && Voice_eqb (voice (language a)) (voice (language b))
  && Qeq_bool (speechSpeed a) (speechSpeed b)
  && action_eqb (currentAction a) (currentAction b).

Definition same_live_deps (a b : Render) : bool :=
  Bool.eqb (isLive a) (isLive b).

(** After a render: the cleanups of the effects whose dependencies changed,
    then their bodies, in the order of the component. *)
Definition runEffects (prev cur : Render) : M unit :=
  when (negb (same_live_deps prev cur)) liveFeedCleanup ;;
  when (negb (same_ask_deps prev cur)) (askEffect cur) ;;
  when (negb (same_live_deps prev cur)) (liveFeedEffect cur).

(** An effect may set state, which renders again; [commit] repeats until the
    state is stable (see [commit_fuel]: three rounds always are enough). *)
Fixpoint commit (fuel : nat) (prev : Render) : M unit :=
  match fuel with
  | 0 => ret tt
  | S fuel => fun w => (runEffects prev (ui w) ;; commit fuel (ui w)) w
  end.

(** The mount of the component: the welcome message (the other two effects
    do nothing on the initial state). *)
Definition mount (r : Render) : M unit :=
  speak "Welcome to OptiRead!" (voice (language r)) (speechSpeed r) ;;
  askEffect r ;;
  liveFeedEffect r.

Fixpoint remove_nth {A} (i : nat) (l : list A) : list A :=
  match i, l with
  | _, [] => []
  | 0, _ :: l' => l'
  | S i', x :: l' => x :: remove_nth i' l'
  end.

Definition drop_pending (i : nat) : M unit :=
  fun w => (tt, mkWorld (ui w) (isCancelledRef w) (webcam w) (clock w)
                  (timeouts w) (intervalId w) (remove_nth i (pending w)), []).

(** The [i]-th suspended async function resumes with outcome [o]. *)
Definition settle (i : nat) (o : Outcome) : M unit :=
  fun w =>
    match nth_error (pending w) i with
    | Some (PProcessAndSpeak r actionType st) =>
        (drop_pending i ;; processAndSpeak_resume r actionType st o) w
    | Some PLiveStop => (drop_pending i ;; handleLive_stopped o) w
    | Some (PLiveStart r) => (drop_pending i ;; handleLive_started r o) w
    | Some POnClose => ret tt w
    | None => ret tt w
    end.

(** The live service calls the [i]-th entry, an [onClose] callback. *)
Definition sessionClosed (i : nat) : M unit :=
  fun w =>
    match nth_error (pending w) i with
    | Some POnClose => (drop_pending i ;; onClose) w
    | _ => ret tt w
    end.

Definition set_webcam (v : option string) : M unit :=
  fun w => (tt, mkWorld (ui w) (isCancelledRef w) v (clock w) (timeouts w)
                  (intervalId w) (pending w), []).

Inductive Event :=
| EvDescribe | EvPerson | EvRemember | EvAsk | EvLive           (* Footer *)
| EvSavePerson (name : string) | EvModalClose                   (* RememberPersonModal *)
| EvSetSpeechSpeed (v : Q) | EvSetLanguage (v : LanguageOption) (* Header *)
| EvOnline (v : bool)                                           (* window *)
| EvRecognition (listening : bool) (text : string)              (* the hook *)
| EvWebcam (frame : option string)                              (* the camera *)
| EvSettle (i : nat) (o : Outcome)                              (* a promise *)
| EvSessionClosed (i : nat)                                     (* live service *)
| EvElapse (ms : nat).                                          (* time *)

(** An event handler is the one of the latest render. *)
Definition dispatch (e : Event) : M unit :=
  fun w =>
    let r := ui w in
    match e with
    | EvDescribe => handleDescribe r w
    | EvPerson => handlePerson r w
    | EvRemember => handleRemember r w
    | EvAsk => handleAsk r w
    | EvLive => handleLive r w
    | EvSavePerson name => handleSavePerson r name w
    | EvModalClose => setShowRememberModal false w
    | EvSetSpeechSpeed v => setSpeechSpeed v w
    | EvSetLanguage v => setLanguage v w
    | EvOnline v => setIsOnline v w
    | EvRecognition l t => modify_ui (with_recognition l t) w
    | EvWebcam f => set_webcam f w
    | EvSettle i o => settle i o w
    | EvSessionClosed i => sessionClosed i w
    | EvElapse _ => ret tt w
    end.

(** One millisecond passes: the timeouts that are due lower the cancellation
    flag, and the live interval, when due, runs its callback and is due again
    500 ms later. *)
Definition advance_clock : M unit :=
  fun w => (tt, mkWorld (ui w) (isCancelledRef w) (webcam w) (S (clock w))
                  (timeouts w) (intervalId w) (pending w), []).

Definition fireTimeouts : M unit :=
  fun w =>
    let due t := t <=? clock w in
    (tt, mkWorld (ui w)
           (if existsb due (timeouts w) then false else isCancelledRef w)
           (webcam w) (clock w)
           (filter (fun t => negb (due t)) (timeouts w))
           (intervalId w) (pending w), []).

Definition fireInterval : M unit :=
  fun w =>
    match intervalId w with
    | Some due =>
        if due <=? clock w
        then (liveTick ;; set_intervalId (Some (due + 500))) w
        else ret tt w
    | None => ret tt w
    end.

Definition tick : M unit := advance_clock ;; fireTimeouts ;; fireInterval.

Definition stamp (t : nat) (es : list Effect) : list (nat * Effect) :=
  map (pair t) es.

Fixpoint elapse (ms : nat) (w : World) : World * list (nat * Effect) :=
  match ms with
  | 0 => (w, [])
  | S ms' =>
      let '(_, w1, es) := tick w in
      let '(w2, log) := elapse ms' w1 in
      (w2, (stamp (clock w1) es ++ log)%list)
  end.

(** An event, the commit that follows it, and the calls it made, each with
    the time at which it was made. *)
Definition step (e : Event) (w : World) : World * list (nat * Effect) :=
  match e with
  | EvElapse ms => elapse ms w
  | _ =>
      let '(_, w', es) := (dispatch e ;; commit 3 (ui w)) w in
      (w', stamp (clock w) es)
  end.

Fixpoint run (tr : list Event) (w : World) : World * list (nat * Effect) :=
  match tr with
  | [] => (w, [])
  | e :: tr' =>
      let '(w1, l1) := step e w in
      let '(w2, l2) := run tr' w1 in
      (w2, (l1 ++ l2)%list)
  end.

(** [useState(1.0)], [useState(LANGUAGES[0])] and the other initial values;
    the hook starts idle with an empty transcript. *)
Definition language0 : LanguageOption :=
  nth 0 LANGUAGES (mkLanguage "" "" Zephyr).

Definition initialRender : Render :=
  mkRender true 1%Q language0 false None [] false false None false "".

Definition initialWorld : World :=
  mkWorld initialRender false None 0 [] None [].

Definition reachable (w : World) : Prop :=
  exists tr, fst (run tr initialWorld) = w.

(** The orchestrator is idle: no action, not busy, not live (recognition is
    the business of the hook). *)
Definition Idle (r : Render) : Prop :=
  currentAction r = None /\ isProcessing r = false /\ isLive r = false.

Definition sends (log : list (nat * Effect)) : list (nat * string) :=
  flat_map (fun te => match snd te with
                      | SendVideoFrame f => [(fst te, f)]
                      | _ => []
                      end) log.

Definition spoken (es : list Effect) : list string :=
  flat_map (fun e => match e with Speak t _ _ => [t] | _ => [] end) es.

(** What saving a person leaves alone, between the world [w] before and the
    world [w'] after: everything but the dialog flag and the pending frame,
    and the remembered people up to a suffix of at most one record. *)
Definition save_unchanged (w w' : World) : Prop :=
  currentAction (ui w') = currentAction (ui w) /\
  isProcessing (ui w') = isProcessing (ui w) /\
  isLive (ui w') = isLive (ui w) /\
  language (ui w') = language (ui w) /\
  speechSpeed (ui w') = speechSpeed (ui w) /\
  isCancelledRef w' = isCancelledRef w /\
  isOnline (ui w') = isOnline (ui w) /\
  isListening (ui w') = isListening (ui w) /\
  transcript (ui w') = transcript (ui w) /\
  (webcam w', clock w', timeouts w', intervalId w', pending w')
    = (webcam w, clock w, timeouts w, intervalId w, pending w) /\
  exists suffix,
    rememberedPeople (ui w') = (rememberedPeople (ui w) ++ suffix)%list
    /\ length suffix <= 1.

(** ** Vocabulary of the properties *)

Fixpoint whitespace_only (s : string) : bool :=
  match s with
  | EmptyString => true
  | String c s' => isWhiteSpace c && whitespace_only s'
  end.

Definition tick_calls (w : World) : list Effect :=
  match intervalId w with
  | Some due =>
      if due <=? S (clock w) then
        match webcam w with
        | Some f => if truthy f then [SendVideoFrame f] else []
        | None => []
        end
      else []
  | None => []
  end.

Definition tick_interval (w : World) : option nat :=
  match intervalId w with
  | Some due => if due <=? S (clock w) then Some (due + 500) else Some due
  | None => None
  end.

Definition tick_flag (w : World) : bool :=
  if existsb (fun t => t <=? S (clock w)) (timeouts w) then false
  else isCancelledRef w.

Definition tick_timeouts (w : World) : list nat :=
  filter (fun t => negb (t <=? S (clock w))) (timeouts w).

(** The pushes of an interval next due at [due], up to time [till]. *)
Definition pushes (due till : nat) (f : string) : list (nat * string) :=
  map (fun k => (due + 500 * k, f)) (seq 0 ((till + 500 - due) / 500)).

Definition stopped_ui (r u : Render) : Render :=
  with_currentAction None
    (with_isProcessing false
       ((if showRememberModal r then with_showRememberModal false else (fun x => x))
          ((if isLive r then with_isLive false else (fun x => x)) u))).

Definition stop_calls (r : Render) : list Effect :=
  (StopSpeech :: (if isListening r then [StopListening] else [])
     ++ (if isLive r then [LiveStop] else []))%list.

Definition committed_interval (prev : Render) (w : World) : option nat :=
  if same_live_deps prev (ui w) then intervalId w
  else if isLive (ui w) then Some (clock w + 500) else None.

Definition asking (r : Render) : bool :=
  negb (isListening r) && truthy (transcript r).

Definition asked (r : Render) : Render :=
  with_currentAction (Some "ask") (with_isProcessing true r).

(** The events that run the global stop: the intent of the single-shot
    action that is current, and the live intent outside live mode, which
    stops everything else before it starts the session. *)
Definition stops (e : Event) (r : Render) : bool :=
  match e with
  | EvDescribe => action_eqb (currentAction r) (Some "describe")
  | EvPerson => action_eqb (currentAction r) (Some "person")
  | EvAsk => action_eqb (currentAction r) (Some "ask")
  | EvLive => negb (isLive r)
  | _ => false
  end.

(** While the remember dialog is shown, a captured frame is pending. *)
Definition dialog_ok (r : Render) : Prop :=
  showRememberModal r = true -> truthy_opt (frameToRemember r) = true.

(** A raised processing flag goes with a current action. *)
Definition processing_ok (r : Render) : Prop :=
  isProcessing r = true -> currentAction r <> None.

(** A computation keeps a property of the React state. *)
Definition keeps (P : Render -> Prop) {A} (m : M A) : Prop :=
  forall w, P (ui w) -> P (ui (snd (fst (m w)))).

(** The events that end live mode: the close of the session, the end of the
    teardown awaited by the live intent, and the failure of the start. *)
Definition ends_live (e : Event) (w : World) : bool :=
  match e with
  | EvSessionClosed i =>
      match nth_error (pending w) i with Some POnClose => true | _ => false end
  | EvSettle i (Fulfilled _) =>
      match nth_error (pending w) i with Some PLiveStop => true | _ => false end
  | EvSettle i Rejected =>
      match nth_error (pending w) i with Some (PLiveStart _) => true | _ => false end
  | _ => false
  end.

Fixpoint never_ends_live (tr : list Event) (w : World) : bool :=
  match tr with
  | [] => true
  | e :: tr' => negb (ends_live e w) && never_ends_live tr' (fst (step e w))
  end.

(** ** Vocabulary of the further properties *)

(** How far a suspended [processAndSpeak] is from its end. *)
Definition stage_rank (st : Stage) : nat :=
  match st with
  | AwaitAction => 2
  | AwaitSpeak => 1
  | AwaitApology => 0
  end.

(** The question the ask effect speaks before it asks. *)
Definition question (t : string) : string :=
  "Asking: " ++ dquote ++ t ++ dquote.

(** The live interval goes with the live flag: installed, and next due within
    500 ms, exactly while the flag is set. *)
Definition feed_ok (w : World) : Prop :=
  match intervalId w with
  | Some due => isLive (ui w) = true /\ clock w < due /\ due <= clock w + 500
  | None => isLive (ui w) = false
  end.

(** A computation leaves the clock and the interval alone. *)
Definition keeps_timer {A} (m : M A) : Prop :=
  forall w, clock (snd (fst (m w))) = clock w
            /\ intervalId (snd (fst (m w))) = intervalId w.

(** A stored record as [handleSavePerson] makes them: a name that is not
    empty and is its own trimmed form, and a frame that is not empty. *)
Definition person_ok (p : RememberedPerson) : Prop :=
  truthy (name p) = true /\ trim (name p) = name p /\
  truthy (imageBase64 p) = true.

(** What one run of the ask effect says and asks, and the world it leaves. *)
Definition ask_calls (r : Render) (w : World) : list Effect :=
  [Speak (question (transcript r)) (voice (language r)) (speechSpeed r);
   AskWithContext (webcam w) (transcript r) (languageName (language r))].

Definition asked_world (r : Render) (w : World) : World :=
  mkWorld (asked (ui w)) false (webcam w) (clock w) (timeouts w) (intervalId w)
    (pending w ++ [PProcessAndSpeak r "ask" AwaitAction]).

(** The remembered people are the list [l]. *)
Definition people_are (l : list RememberedPerson) (r : Render) : Prop :=
  rememberedPeople r = l.

(** ** Runs used as examples *)

Definition describe_from_idle : list Event :=
  [EvWebcam (Some "A"); EvDescribe].

(** Live mode is started, the session is established, and the describe
    intent dispatches a call while live mode is on. *)
Definition describe_while_live : list Event :=
  [EvLive; EvSettle 1 (Fulfilled ""); EvWebcam (Some "A"); EvDescribe].

(** The same with the start of the session still awaited. *)
Definition describe_while_live_starts : list Event :=
  [EvLive; EvWebcam (Some "A"); EvDescribe].

(** A completed describe call: nothing of it is pending, the cancellation
    flag is down, and the orchestrator still shows it as being processed. *)
Definition completed_but_processing (w : World) : Prop :=
  pending w = [] /\ isCancelledRef w = false /\
  currentAction (ui w) = Some "describe" /\ isProcessing (ui w) = true.


Definition english_uk : LanguageOption := nth 1 LANGUAGES language0.

Definition settings_changed_in_flight : World :=
  fst (run [EvWebcam (Some "A"); EvDescribe;
            EvSetLanguage english_uk; EvSetSpeechSpeed 2%Q] initialWorld).

Definition stopped_describe : World :=
  let w := fst (run describe_from_idle initialWorld) in
  exec (handleStop (ui w)) w.

Definition live_session_1700 : list Event :=
  [EvWebcam (Some "A"); EvLive; EvSettle 1 (Fulfilled ""); EvElapse 1700; EvLive].

(** * Properties *)

(** ** Equality tests, [trim], empty commits *)

Lemma action_eqb_eq a b : action_eqb a b = true <-> a = b.
Proof.
  destruct a as [x|], b as [y|]; simpl; split; intros H;
    try discriminate; try reflexivity.
  - apply String.eqb_eq in H. now subst.
  - inversion H. apply String.eqb_refl.
Qed.

Lemma action_eqb_refl a : action_eqb a a = true.
Proof. now apply action_eqb_eq. Qed.

Lemma Voice_eqb_refl v : Voice_eqb v v = true.
Proof. now destruct v. Qed.

Lemma trimStart_empty s : trimStart s = "" <-> whitespace_only s = true.
Proof.
  induction s as [|c s IH]; simpl.
  - tauto.
  - destruct (isWhiteSpace c); simpl.
    + exact IH.
    + split; discriminate.
Qed.

Lemma trimEnd_empty s : trimEnd s = "" <-> whitespace_only s = true.
Proof.
  induction s as [|c s IH]; simpl.
  - tauto.
  - destruct (trimEnd s) eqn:E.
    + destruct (isWhiteSpace c); simpl.
      * split; intros _; [now apply IH | reflexivity].
      * split; discriminate.
    + split; [discriminate|].
      intros H. apply andb_true_iff in H. destruct H as [_ H].
      apply IH in H. discriminate.
Qed.

Lemma whitespace_only_trimStart s :
  whitespace_only (trimStart s) = whitespace_only s.
Proof.
  induction s as [|c s IH]; simpl; [reflexivity|].
  destruct (isWhiteSpace c) eqn:E; simpl; [exact IH | now rewrite E].
Qed.

Lemma trim_examples :
  trim "  Alice  " = "Alice" /\ trim "" = "" /\ trim "   " = "" /\
  trim " Ada Lovelace " = "Ada Lovelace" /\
  trim (String (ascii_of_nat 9) "Bob" ++ String (ascii_of_nat 160) "") = "Bob".
Proof. repeat split. Qed.

Lemma trim_empty s : trim s = "" <-> whitespace_only s = true.
Proof.
  unfold trim. rewrite trimEnd_empty, whitespace_only_trimStart. tauto.
Qed.

Lemma truthy_trim s : truthy (trim s) = negb (whitespace_only s).
Proof.
  unfold truthy. destruct (whitespace_only s) eqn:E.
  - apply trim_empty in E. now rewrite E.
  - destruct (trim s) eqn:T; [|reflexivity].
    apply trim_empty in T. congruence.
Qed.

Lemma same_ask_deps_refl r : same_ask_deps r r = true.
Proof.
  unfold same_ask_deps.
  now rewrite Bool.eqb_reflx, !String.eqb_refl, Voice_eqb_refl,
    Qeq_bool_refl, action_eqb_refl.
Qed.

Lemma same_live_deps_refl r : same_live_deps r r = true.
Proof. apply Bool.eqb_reflx. Qed.

Lemma runEffects_same r w : runEffects r r w = (tt, w, []).
Proof.
  unfold runEffects.
  now rewrite same_ask_deps_refl, same_live_deps_refl.
Qed.

Lemma commit_same fuel w : commit fuel (ui w) w = (tt, w, []).
Proof.
  induction fuel as [|fuel IH]; [reflexivity|].
  simpl. unfold bind. rewrite runEffects_same. now rewrite IH.
Qed.

(** The mount says the welcome message and leaves the initial world as it
    is. *)
Lemma mount_initialWorld :
  mount initialRender initialWorld
    = (tt, initialWorld, [Speak "Welcome to OptiRead!" Zephyr 1%Q]).
Proof. reflexivity. Qed.

(** An event whose handler leaves the world alone is followed by an empty
    commit. *)
Lemma step_silent e w :
  (forall ms, e <> EvElapse ms) ->
  dispatch e w = (tt, w, []) -> step e w = (w, []).
Proof.
  intros Hne H.
  destruct e; try (now exfalso; eapply Hne);
    unfold step, bind; rewrite H, commit_same; reflexivity.
Qed.

(** ** Time *)

(** One millisecond, field by field. *)
Lemma tick_eq w :
  tick w =
    (tt, mkWorld (ui w) (tick_flag w) (webcam w) (S (clock w)) (tick_timeouts w)
           (tick_interval w) (pending w),
     tick_calls w).
Proof.
  unfold tick, bind, advance_clock, fireTimeouts, fireInterval, tick_calls,
    tick_interval, tick_flag, tick_timeouts.
  cbn [ui isCancelledRef webcam clock timeouts intervalId pending].
  destruct (intervalId w) as [due|]; [|reflexivity].
  destruct (due <=? S (clock w)); [|reflexivity].
  unfold liveTick, captureFrame, if_frame, bind, set_intervalId, emit, ret.
  cbn [ui isCancelledRef webcam clock timeouts intervalId pending].
  destruct (webcam w) as [f|]; [destruct (truthy f)|]; reflexivity.
Qed.

Lemma elapse_S n w :
  elapse (S n) w =
    (fst (elapse n (snd (fst (tick w)))),
     (stamp (S (clock w)) (tick_calls w) ++ snd (elapse n (snd (fst (tick w)))))%list).
Proof.
  cbn [elapse]. rewrite tick_eq. cbn [fst snd clock].
  now destruct (elapse n _).
Qed.

(** Time changes neither the React state, nor the camera, nor what is
    pending; it moves the clock. *)
Lemma elapse_frame n : forall w,
  let w' := fst (elapse n w) in
  ui w' = ui w /\ webcam w' = webcam w /\ pending w' = pending w /\
  clock w' = clock w + n.
Proof.
  induction n as [|n IH]; intros w; cbn zeta.
  - cbn. repeat split. lia.
  - rewrite elapse_S. cbn [fst]. rewrite tick_eq. cbn [fst snd].
    destruct (IH (mkWorld (ui w) (tick_flag w) (webcam w) (S (clock w))
                    (tick_timeouts w) (tick_interval w) (pending w)))
      as (U & C & P & K).
    cbn [ui webcam pending clock] in *. repeat split; try assumption. lia.
Qed.

(** The cancellation flag stays up as long as no timeout falls due. *)
Lemma elapse_keeps_flag n : forall w,
  isCancelledRef w = true ->
  (forall t, In t (timeouts w) -> clock w + n < t) ->
  isCancelledRef (fst (elapse n w)) = true.
Proof.
  induction n as [|n IH]; intros w Hf Ht.
  - exact Hf.
  - rewrite elapse_S. cbn [fst]. rewrite tick_eq. cbn [fst snd].
    apply IH; cbn [isCancelledRef timeouts clock].
    + unfold tick_flag.
      destruct (existsb _ (timeouts w)) eqn:E; [|exact Hf].
      apply existsb_exists in E. destruct E as (t & Hin & Hle).
      apply Nat.leb_le in Hle. specialize (Ht t Hin). lia.
    + intros t Hin. unfold tick_timeouts in Hin.
      apply filter_In in Hin. destruct Hin as [Hin _].
      specialize (Ht t Hin). lia.
Qed.

(** Once down, the flag stays down while time passes. *)
Lemma elapse_flag_stays_down n : forall w,
  isCancelledRef w = false -> isCancelledRef (fst (elapse n w)) = false.
Proof.
  induction n as [|n IH]; intros w H; [exact H|].
  rewrite elapse_S. cbn [fst]. rewrite tick_eq. cbn [fst snd].
  apply IH. cbn [isCancelledRef]. unfold tick_flag. rewrite H.
  now destruct (existsb _ _).
Qed.

(** A timeout that falls due while time passes lowers the flag. *)
Lemma elapse_lowers_flag n : forall w t,
  In t (timeouts w) -> clock w < t -> t <= clock w + n ->
  isCancelledRef (fst (elapse n w)) = false.
Proof.
  induction n as [|n IH]; intros w t Hin Hlo Hhi; [lia|].
  rewrite elapse_S. cbn [fst]. rewrite tick_eq. cbn [fst snd].
  destruct (t <=? S (clock w)) eqn:E.
  - apply elapse_flag_stays_down. cbn [isCancelledRef]. unfold tick_flag.
    replace (existsb (fun t0 => t0 <=? S (clock w)) (timeouts w)) with true;
      [reflexivity|].
    symmetry. apply existsb_exists. now exists t.
  - apply Nat.leb_gt in E. apply (IH _ t); cbn [timeouts clock]; try lia.
    unfold tick_timeouts. apply filter_In. split; [exact Hin|].
    apply negb_true_iff. apply Nat.leb_gt. lia.
Qed.

Lemma sends_app a b : sends (a ++ b) = (sends a ++ sends b)%list.
Proof. apply flat_map_app. Qed.

(** With no interval installed, time pushes nothing. *)
Lemma elapse_without_interval n : forall w,
  intervalId w = None ->
  intervalId (fst (elapse n w)) = None /\ sends (snd (elapse n w)) = [].
Proof.
  induction n as [|n IH]; intros w H.
  - now split.
  - rewrite elapse_S. cbn [fst snd]. rewrite tick_eq. cbn [fst snd].
    unfold tick_calls. rewrite H. cbn [stamp map app].
    apply IH. cbn [intervalId]. unfold tick_interval. now rewrite H.
Qed.

(** With no frame to capture, the interval pushes nothing. *)
Lemma elapse_without_frame n : forall w,
  truthy_opt (webcam w) = false -> sends (snd (elapse n w)) = [].
Proof.
  induction n as [|n IH]; intros w H.
  - reflexivity.
  - rewrite elapse_S. cbn [snd]. rewrite tick_eq. cbn [fst snd].
    rewrite sends_app, IH by exact H.
    unfold tick_calls.
    destruct (intervalId w) as [due|]; [|reflexivity].
    destruct (due <=? S (clock w)); [|reflexivity].
    destruct (webcam w) as [f|]; [|reflexivity].
    cbn in H. now rewrite H.
Qed.

(** With a frame to capture, the interval pushes it every 500 ms. *)
Lemma elapse_with_frame f n : forall w due,
  intervalId w = Some due -> clock w < due ->
  webcam w = Some f -> truthy f = true ->
  sends (snd (elapse n w)) = pushes due (clock w + n) f.
Proof.
  induction n as [|n IH]; intros w due Hi Hc Hw Hf.
  - cbn [elapse snd sends flat_map]. unfold pushes.
    rewrite Nat.div_small by lia. reflexivity.
  - rewrite elapse_S. cbn [snd]. rewrite tick_eq. cbn [fst snd].
    rewrite sends_app. unfold tick_calls. rewrite Hi, Hw, Hf.
    destruct (due <=? S (clock w)) eqn:E.
    + assert (due = S (clock w)) by (apply Nat.leb_le in E; lia). subst due.
      rewrite (IH _ (S (clock w) + 500));
        cbn [intervalId clock webcam];
        [ | unfold tick_interval; now rewrite Hi, E | lia
          | reflexivity || exact Hw | exact Hf ].
      unfold pushes.
      replace (clock w + S n + 500 - S (clock w)) with (n + 1 * 500) by lia.
      replace (S (clock w) + n + 500 - (S (clock w) + 500)) with n by lia.
      rewrite Nat.div_add by discriminate.
      rewrite Nat.add_1_r. cbn [seq map stamp sends flat_map snd fst app].
      f_equal; [f_equal; lia|].
      rewrite <- seq_shift, map_map.
      apply map_ext. intros k. f_equal. lia.
    + apply Nat.leb_gt in E.
      rewrite (IH _ due);
        cbn [intervalId clock webcam];
        [ | unfold tick_interval; now rewrite Hi, (proj2 (Nat.leb_gt _ _) E)
          | lia | reflexivity || exact Hw | exact Hf ].
      cbn [stamp map sends flat_map app]. unfold pushes.
      f_equal. f_equal. f_equal. lia.
Qed.

(** ** The global stop *)

(** The global stop, field by field. *)
Lemma handleStop_eq r w :
  handleStop r w =
    (tt, mkWorld (stopped_ui r (ui w)) true (webcam w) (clock w)
           (timeouts w ++ [clock w + 100]) (intervalId w) (pending w),
     stop_calls r).
Proof.
  unfold handleStop, stopped_ui, stop_calls, bind, when.
  destruct (isListening r), (isLive r), (showRememberModal r); reflexivity.
Qed.

Lemma clearing_cleared_state w :
  isProcessing (ui w) = false -> currentAction (ui w) = None ->
  (setIsProcessing false ;; setCurrentAction None) w = (tt, w, []).
Proof.
  destruct w as [[] ? ? ? ? ? ?]. cbn. intros -> ->. reflexivity.
Qed.

(** A completion that finds the cancellation flag up calls nothing; it can
    only clear the processing flag and the current action. *)
Lemma completion_while_cancelled r a st o w :
  isCancelledRef w = true ->
  processAndSpeak_resume r a st o w = processAndSpeak_finally r a w
  /\ calls (processAndSpeak_resume r a st o) w = [].
Proof.
  intros Hc.
  assert (E : processAndSpeak_resume r a st o w = processAndSpeak_finally r a w).
  { destruct st, o; unfold processAndSpeak_resume, processAndSpeak_catch, bind,
      get_isCancelledRef; rewrite ?Hc; try reflexivity;
      now destruct (processAndSpeak_finally r a w) as [[[] ?] ?]. }
  split; [exact E|].
  unfold calls. rewrite E. unfold processAndSpeak_finally, when.
  now destruct (action_eqb _ _).
Qed.

(** ** The live interval across commits *)

(** No handler of a single-shot action touches the live flag, the clock or
    the interval. *)
Lemma askEffect_feed r w :
  let w' := exec (askEffect r) w in
  isLive (ui w') = isLive (ui w) /\ clock w' = clock w /\
  intervalId w' = intervalId w.
Proof.
  unfold exec, askEffect, when.
  destruct (negb (isListening r) && truthy (transcript r)); now cbn.
Qed.

Lemma runEffects_feed prev w :
  let w' := exec (runEffects prev (ui w)) w in
  intervalId w' = committed_interval prev w /\
  isLive (ui w') = isLive (ui w) /\ clock w' = clock w.
Proof.
  unfold exec, runEffects, committed_interval, bind, when.
  destruct (same_live_deps prev (ui w)); cbn [negb].
  - destruct (negb (same_ask_deps prev (ui w))); [|now cbn].
    cbn. destruct (askEffect_feed (ui w) w) as (L & C & I).
    unfold exec in *. destruct (askEffect (ui w) w) as [[[] w1] e1].
    cbn in *. tauto.
  - unfold liveFeedCleanup, liveFeedEffect, clearInterval, setInterval,
    set_intervalId, when. cbn.
    destruct (negb (same_ask_deps prev (ui w))).
    + pose (w0 := mkWorld (ui w) (isCancelledRef w) (webcam w) (clock w)
                    (timeouts w) None (pending w)).
      destruct (askEffect_feed (ui w) w0) as (L & C & I).
      unfold exec in *. fold w0.
      destruct (askEffect (ui w) w0) as [[[] w1] e1].
      cbn in *. destruct (isLive (ui w)); cbn; rewrite ?C; tauto.
    + destruct (isLive (ui w)) eqn:E; repeat split; exact E.
Qed.

(** The commit installs the interval when the live flag has gone up, clears
    it when the flag has gone down, and leaves it alone otherwise. *)
Lemma commit_feed fuel : forall prev w,
  let w' := exec (commit (S fuel) prev) w in
  intervalId w' = committed_interval prev w /\
  isLive (ui w') = isLive (ui w) /\ clock w' = clock w.
Proof.
  induction fuel as [|fuel IH]; intros prev w.
  - cbn [commit]. unfold exec, bind.
    destruct (runEffects_feed prev w) as (I & L & C). unfold exec in *.
    destruct (runEffects prev (ui w) w) as [[[] w1] e1]. now cbn in *.
  - change (commit (S (S fuel)) prev)
      with (fun w => (runEffects prev (ui w) ;; commit (S fuel) (ui w)) w).
    unfold exec, bind.
    destruct (runEffects_feed prev w) as (I & L & C). unfold exec in *.
    destruct (runEffects prev (ui w) w) as [[[] w1] e1]. cbn in I, L, C.
    destruct (IH (ui w) w1) as (I' & L' & C'). unfold exec in *.
    destruct (commit (S fuel) (ui w) w1) as [[[] w2] e2]. cbn in *.
    repeat split; try congruence.
    rewrite I'. unfold committed_interval at 1, same_live_deps.
    now rewrite L, Bool.eqb_reflx.
Qed.

(** ** The commit needs no more than its three rounds *)

Lemma askEffect_ui r w :
  ui (exec (askEffect r) w) = if asking r then asked (ui w) else ui w.
Proof.
  unfold exec, askEffect, asking, when.
  now destruct (negb (isListening r) && truthy (transcript r)).
Qed.

Lemma runEffects_ui prev w :
  ui (exec (runEffects prev (ui w)) w) = ui w \/
  (asking (ui w) = true /\ ui (exec (runEffects prev (ui w)) w) = asked (ui w)).
Proof.
  unfold exec, runEffects, bind, when, liveFeedCleanup, liveFeedEffect,
    clearInterval, setInterval, set_intervalId, when.
  destruct (negb (same_live_deps prev (ui w)));
    destruct (negb (same_ask_deps prev (ui w))); cbn [ret fst snd ui];
    try (left; now destruct (isLive (ui w))).
  - pose (w0 := mkWorld (ui w) (isCancelledRef w) (webcam w) (clock w)
                  (timeouts w) None (pending w)).
    fold w0. pose proof (askEffect_ui (ui w) w0) as A. unfold exec in A.
    destruct (askEffect (ui w) w0) as [[[] w1] e1]. cbn [fst snd] in *.
    change (ui w0) with (ui w) in A.
    destruct (asking (ui w)) eqn:Q; [right | left];
      destruct (isLive (ui w)); cbn; auto.
  - pose proof (askEffect_ui (ui w) w) as A. unfold exec in A.
    destruct (askEffect (ui w) w) as [[[] w1] e1]. cbn [fst snd] in *.
    destruct (asking (ui w)) eqn:Q; [right | left]; cbn; auto.
Qed.

Lemma commit_noop fuel r w :
  same_ask_deps r (ui w) = true -> same_live_deps r (ui w) = true ->
  commit fuel r w = (tt, w, []).
Proof.
  intros A L. destruct fuel as [|fuel]; [reflexivity|].
  cbn [commit]. unfold bind, runEffects, when. rewrite A, L. cbn.
  now rewrite commit_same.
Qed.

Lemma asked_deps r :
  same_ask_deps (asked r) (asked (asked r)) = true /\
  same_live_deps (asked r) (asked (asked r)) = true.
Proof.
  unfold same_ask_deps, same_live_deps, asked. cbn.
  now rewrite !Bool.eqb_reflx, !String.eqb_refl, Voice_eqb_refl, Qeq_bool_refl.
Qed.

(** After two rounds of effects the state no longer moves. *)
Lemma stable_after_two_rounds prev w :
  let w1 := exec (runEffects prev (ui w)) w in
  let w2 := exec (runEffects (ui w) (ui w1)) w1 in
  same_ask_deps (ui w1) (ui w2) = true /\ same_live_deps (ui w1) (ui w2) = true.
Proof.
  intros w1 w2.
  destruct (runEffects_ui prev w) as [U|[Q U]]; fold w1 in U.
  - subst w2. rewrite <- U. unfold exec. rewrite runEffects_same. cbn.
    split; [apply same_ask_deps_refl | apply same_live_deps_refl].
  - destruct (runEffects_ui (ui w) w1) as [U2|[_ U2]]; fold w2 in U2;
      rewrite U2.
    + split; [apply same_ask_deps_refl | apply same_live_deps_refl].
    + rewrite U. apply asked_deps.
Qed.

(** Enough fuel: more rounds than [step] gives to the commit change nothing. *)
Lemma commit_fuel k prev w : commit (3 + k) prev w = commit 3 prev w.
Proof.
  pose proof (stable_after_two_rounds prev w) as [A L].
  change (commit (3 + k) prev w)
    with ((runEffects prev (ui w) ;;
           (fun w1 => (runEffects (ui w) (ui w1) ;; commit (S k) (ui w1)) w1)) w).
  change (commit 3 prev w)
    with ((runEffects prev (ui w) ;;
           (fun w1 => (runEffects (ui w) (ui w1) ;; commit 1 (ui w1)) w1)) w).
  unfold bind, exec in *.
  destruct (runEffects prev (ui w) w) as [[[] w1] e1]. cbn [fst snd] in *.
  destruct (runEffects (ui w) (ui w1) w1) as [[[] w2] e2]. cbn [fst snd] in *.
  now rewrite !commit_noop.
Qed.

(** ** The handlers, case by case *)

Lemma handleDescribe_no_frame r w :
  action_eqb (currentAction r) (Some "describe") = false ->
  truthy_opt (webcam w) = false ->
  handleDescribe r w = (tt, w, []).
Proof.
  intros Ha Hf. unfold handleDescribe. rewrite Ha.
  destruct (isProcessing r); [reflexivity|].
  unfold bind, captureFrame, if_frame.
  destruct (webcam w) as [f|]; simpl in *; [now rewrite Hf | reflexivity].
Qed.

Lemma handlePerson_no_frame r w :
  action_eqb (currentAction r) (Some "person") = false ->
  truthy_opt (webcam w) = false ->
  handlePerson r w = (tt, w, []).
Proof.
  intros Ha Hf. unfold handlePerson. rewrite Ha.
  destruct (isProcessing r); [reflexivity|].
  unfold bind, captureFrame, if_frame.
  destruct (webcam w) as [f|]; simpl in *; [now rewrite Hf | reflexivity].
Qed.

Lemma handleRemember_no_frame r w :
  truthy_opt (webcam w) = false ->
  handleRemember r w = (tt, w, []).
Proof.
  intros Hf. unfold handleRemember.
  destruct (isProcessing r); [reflexivity|].
  unfold bind, captureFrame, if_frame.
  destruct (webcam w) as [f|]; simpl in *; [now rewrite Hf | reflexivity].
Qed.

(** The two ways [handleSavePerson] can run. *)
Lemma handleSavePerson_saves r w nm frame :
  frameToRemember r = Some frame -> truthy frame = true ->
  whitespace_only nm = false ->
  handleSavePerson r nm w =
    (tt,
     mkWorld
       (with_frameToRemember None
          (with_showRememberModal false
             (with_rememberedPeople
                (rememberedPeople (ui w) ++ [mkPerson (trim nm) frame])%list (ui w))))
       (isCancelledRef w) (webcam w) (clock w) (timeouts w) (intervalId w)
       (pending w),
     [Speak ("I'll remember " ++ trim nm ++ ".") (voice (language r)) (speechSpeed r)]).
Proof.
  intros Hf Ht Hn. unfold handleSavePerson.
  rewrite truthy_trim, Hn, Hf. simpl. now rewrite Ht.
Qed.

Lemma handleSavePerson_discards r w nm :
  whitespace_only nm = true \/ truthy_opt (frameToRemember r) = false ->
  handleSavePerson r nm w =
    (tt,
     mkWorld (with_frameToRemember None (with_showRememberModal false (ui w)))
       (isCancelledRef w) (webcam w) (clock w) (timeouts w) (intervalId w)
       (pending w),
     []).
Proof.
  intros H. unfold handleSavePerson. rewrite truthy_trim.
  destruct (whitespace_only nm) eqn:Hn; simpl; [reflexivity|].
  destruct H as [H|H]; [discriminate|].
  destruct (frameToRemember r) as [f|]; simpl in *; [now rewrite H | reflexivity].
Qed.

Lemma handleSavePerson_cases r w nm :
  exists suffix es,
    handleSavePerson r nm w =
      (tt,
       mkWorld
         (with_frameToRemember None
            (with_showRememberModal false
               (with_rememberedPeople (rememberedPeople (ui w) ++ suffix)%list (ui w))))
         (isCancelledRef w) (webcam w) (clock w) (timeouts w) (intervalId w)
         (pending w),
       es)
    /\ length suffix <= 1.
Proof.
  destruct (whitespace_only nm) eqn:Hn.
  - exists [], []. rewrite handleSavePerson_discards by now left.
    rewrite app_nil_r. split; [|simpl; lia].
    now destruct w as [[] ? ? ? ? ? ?].
  - destruct (truthy_opt (frameToRemember r)) eqn:Hf.
    + destruct (frameToRemember r) as [f|] eqn:Ef; [|discriminate].
      eexists [_], [_]. now rewrite (handleSavePerson_saves r w nm f).
    + exists [], []. rewrite handleSavePerson_discards by now right.
      rewrite app_nil_r. split; [|simpl; lia].
      now destruct w as [[] ? ? ? ? ? ?].
Qed.

(** The commit that follows a save has nothing to do: no dependency of an
    effect has changed. *)
Lemma step_save_person nm w :
  step (EvSavePerson nm) w =
    (exec (handleSavePerson (ui w) nm) w,
     stamp (clock w) (calls (handleSavePerson (ui w) nm) w)).
Proof.
  unfold step, bind, dispatch, exec, calls.
  destruct (handleSavePerson_cases (ui w) w nm) as (suffix & es & E & _).
  rewrite E. cbn [fst snd].
  rewrite commit_noop; [now rewrite app_nil_r | |]; cbn [ui].
  - unfold same_ask_deps. cbn.
    now rewrite !Bool.eqb_reflx, !String.eqb_refl, Voice_eqb_refl,
      Qeq_bool_refl, action_eqb_refl.
  - apply Bool.eqb_reflx.
Qed.

(** What a call that resolves or rejects with the cancellation flag down
    makes the orchestrator say. *)
Lemma resolved_result_is_spoken r a text w :
  isCancelledRef w = false ->
  calls (processAndSpeak_resume r a AwaitAction (Fulfilled text)) w
    = [Speak text (voice (language r)) (speechSpeed r)].
Proof.
  intros Hc. unfold calls, processAndSpeak_resume, bind, get_isCancelledRef.
  simpl. now rewrite Hc.
Qed.

Lemma rejected_call_apologises r a w :
  isCancelledRef w = false ->
  calls (processAndSpeak_resume r a AwaitAction Rejected) w
    = [ConsoleError "An error occurred:";
       Speak "Sorry, I encountered an error. Please try again."
         (voice (language r)) (speechSpeed r)].
Proof.
  intros Hc.
  unfold calls, processAndSpeak_resume, processAndSpeak_catch, bind,
    get_isCancelledRef.
  simpl. now rewrite Hc.
Qed.

(** The [finally] block tests the [currentAction] of the render that
    dispatched the call. When that render had another current action, the
    block does nothing, whatever the current action is by now. *)
Lemma finally_of_a_stale_render r a w :
  currentAction r <> Some a ->
  processAndSpeak_finally r a w = (tt, w, []).
Proof.
  intros H. unfold processAndSpeak_finally.
  destruct (action_eqb (currentAction r) (Some a)) eqn:E; [|reflexivity].
  apply action_eqb_eq in E. contradiction.
Qed.

(** [handleDescribe] and [handlePerson] dispatch only from a render whose
    current action is not their own: with their own action current they run
    the stop instead. *)
Lemma handleDescribe_dispatch_render r w :
  pending (exec (handleDescribe r) w) <> pending w ->
  currentAction r <> Some "describe".
Proof.
  intros H E. apply H. unfold exec, handleDescribe.
  now rewrite E, action_eqb_refl, handleStop_eq.
Qed.

Lemma handlePerson_dispatch_render r w :
  pending (exec (handlePerson r) w) <> pending w ->
  currentAction r <> Some "person".
Proof.
  intros H E. apply H. unfold exec, handlePerson.
  now rewrite E, action_eqb_refl, handleStop_eq.
Qed.

(** So no completion of a call they dispatched ever changes the React state:
    the processing flag and the current action stay up. *)
Lemma stale_completion_keeps_state r a st o w :
  currentAction r <> Some a ->
  ui (exec (processAndSpeak_resume r a st o) w) = ui w.
Proof.
  intros H. unfold exec.
  assert (F := finally_of_a_stale_render r a).
  destruct st, o; unfold processAndSpeak_resume, processAndSpeak_catch, bind,
    get_isCancelledRef; cbn;
    destruct (isCancelledRef w); cbn; rewrite ?F by assumption; reflexivity.
Qed.

(** Starting live mode runs the global stop first. *)
Lemma handleLive_start_stops_first r w :
  isLive r = false ->
  handleLive r w =
    (handleStop r ;;
     setCurrentAction (Some "live") ;; setIsLive true ;;
     emit (LiveStart (voice (language r))) ;;
     register POnClose ;; await (PLiveStart r)) w.
Proof.
  intros H. unfold handleLive. now rewrite H.
Qed.

(** A failed start says so and clears the live flag and the current action;
    the processing flag is not touched. *)
Lemma live_start_failure r w :
  handleLive_started r Rejected w =
    (tt, mkWorld (with_currentAction None (with_isLive false (ui w)))
           (isCancelledRef w) (webcam w) (clock w) (timeouts w)
           (intervalId w) (pending w),
     [ConsoleError "Failed to start live service";
      Speak "Could not start live mode." (voice (language r)) (speechSpeed r)]).
Proof. reflexivity. Qed.

(** The close of the session clears the live flag and the current action;
    the processing flag is not touched. *)
Lemma session_close r w :
  r = ui (exec onClose w) ->
  isLive r = false /\ currentAction r = None /\
  isProcessing r = isProcessing (ui w).
Proof. intros ->. repeat split. Qed.

(** Hence both return to [Idle] when no single-shot call is being processed. *)
Lemma live_end_is_idle_unless_processing r w :
  isProcessing (ui w) = false ->
  Idle (ui (exec onClose w)) /\ Idle (ui (exec (handleLive_started r Rejected) w)).
Proof.
  intros H. split; repeat split; exact H.
Qed.

(** ** Properties of the React state kept by the handlers *)

Section Preservation.

Variable P : Render -> Prop.

Lemma keeps_ret {A} (a : A) : keeps P (ret a).
Proof. intros w H. exact H. Qed.

Lemma keeps_bind {A B} (m : M A) (k : A -> M B) :
  keeps P m -> (forall a, keeps P (k a)) -> keeps P (bind m k).
Proof.
  intros Hm Hk w H. unfold bind.
  specialize (Hm w H). destruct (m w) as [[a w1] e1]. cbn in Hm.
  specialize (Hk a w1 Hm). destruct (k a w1) as [[b w2] e2]. exact Hk.
Qed.

Lemma keeps_when b m : keeps P m -> keeps P (when b m).
Proof. intros H. destruct b; [exact H | apply keeps_ret]. Qed.

Lemma keeps_if_frame f k :
  (forall x, keeps P (k x)) -> keeps P (if_frame f k).
Proof.
  intros H. unfold if_frame. destruct f as [x|]; [|apply keeps_ret].
  destruct (truthy x); [apply H | apply keeps_ret].
Qed.

Lemma keeps_modify_ui f :
  (forall r, P r -> P (f r)) -> keeps P (modify_ui f).
Proof. intros H w Hw. now apply H. Qed.

(** What leaves the React state alone keeps everything. *)
Lemma keeps_same_ui {A} (m : M A) :
  (forall w, ui (snd (fst (m w))) = ui w) -> keeps P m.
Proof. intros E w H. now rewrite E. Qed.

Lemma keeps_emit e : keeps P (emit e).
Proof. now apply keeps_same_ui. Qed.

Lemma keeps_speak t v q : keeps P (speak t v q).
Proof. now apply keeps_same_ui. Qed.

Lemma keeps_await p : keeps P (await p).
Proof. now apply keeps_same_ui. Qed.

Lemma keeps_register p : keeps P (register p).
Proof. now apply keeps_same_ui. Qed.

Lemma keeps_setInterval ms : keeps P (setInterval ms).
Proof. now apply keeps_same_ui. Qed.

Lemma keeps_clearInterval : keeps P clearInterval.
Proof. now apply keeps_same_ui. Qed.

Lemma keeps_set_isCancelledRef v : keeps P (set_isCancelledRef v).
Proof. now apply keeps_same_ui. Qed.

Lemma keeps_get_isCancelledRef : keeps P get_isCancelledRef.
Proof. now apply keeps_same_ui. Qed.

Lemma keeps_captureFrame : keeps P captureFrame.
Proof. now apply keeps_same_ui. Qed.

Lemma keeps_setTimeout ms : keeps P (setTimeout ms).
Proof. now apply keeps_same_ui. Qed.

Lemma keeps_drop_pending i : keeps P (drop_pending i).
Proof. now apply keeps_same_ui. Qed.

Lemma keeps_set_webcam v : keeps P (set_webcam v).
Proof. now apply keeps_same_ui. Qed.

(** The commit runs only the ask effect on the React state. *)
Hypothesis keeps_askEffect : forall r, keeps P (askEffect r).

Lemma keeps_runEffects prev cur : keeps P (runEffects prev cur).
Proof.
  unfold runEffects, liveFeedCleanup, liveFeedEffect.
  apply keeps_bind; [apply keeps_when, keeps_clearInterval | intros _].
  apply keeps_bind; [apply keeps_when, keeps_askEffect | intros _].
  apply keeps_when, keeps_when, keeps_setInterval.
Qed.

Lemma keeps_commit fuel : forall prev, keeps P (commit fuel prev).
Proof.
  induction fuel as [|fuel IH]; intros prev w H; [exact H|].
  cbn [commit].
  exact (keeps_bind _ _ (keeps_runEffects prev (ui w)) (fun _ => IH (ui w)) w H).
Qed.

(** An event keeps what its handler keeps. *)
Lemma keeps_step e w :
  (P (ui w) -> P (ui (exec (dispatch e) w))) ->
  P (ui w) -> P (ui (fst (step e w))).
Proof.
  intros D H.
  assert (G : P (ui (snd (fst ((dispatch e ;; commit 3 (ui w)) w))))).
  { specialize (D H). unfold exec in D. unfold bind.
    destruct (dispatch e w) as [[u w1] e1]. cbn [fst snd] in D.
    pose proof (keeps_commit 3 (ui w) w1 D) as C.
    now destruct (commit 3 (ui w) w1) as [[u2 w2] e2]. }
  destruct e; unfold step;
    try (rewrite (proj1 (elapse_frame _ w)); exact H);
    now destruct ((dispatch _ ;; commit 3 (ui w)) w) as [[u w1] es].
Qed.

End Preservation.

Create HintDb keeps.
#[local] Hint Resolve keeps_ret keeps_emit keeps_speak keeps_await
  keeps_register keeps_setInterval keeps_clearInterval
  keeps_set_isCancelledRef keeps_get_isCancelledRef keeps_captureFrame
  keeps_setTimeout keeps_drop_pending keeps_set_webcam : keeps.

(** Split a computation along its binds and conditionals; a state setter
    that does not touch the fields the property reads keeps it as it is. *)
Ltac keeps_tac :=
  repeat first
    [ solve [auto with keeps]
    | solve [apply keeps_modify_ui; intros ? H; exact H]
    | match goal with
      | |- keeps _ (if ?b then _ else _) => destruct b
      | |- keeps _ (match ?o with Fulfilled _ => _ | Rejected => _ end) =>
          destruct o
      end
    | apply keeps_bind; [|intros ?]
    | apply keeps_when
    | apply keeps_if_frame; intros ? ].

(** *** While the dialog is shown a frame is pending *)

Lemma dialog_close_dialog : keeps dialog_ok (setShowRememberModal false).
Proof. apply keeps_modify_ui. intros r _ H. discriminate. Qed.

#[local] Hint Resolve dialog_close_dialog : keeps.

Lemma dialog_handleStop r : keeps dialog_ok (handleStop r).
Proof. unfold handleStop. keeps_tac. Qed.

Lemma dialog_processAndSpeak r a : keeps dialog_ok (processAndSpeak r a).
Proof. unfold processAndSpeak. keeps_tac. Qed.

Lemma dialog_finally r a : keeps dialog_ok (processAndSpeak_finally r a).
Proof. unfold processAndSpeak_finally. keeps_tac. Qed.

#[local] Hint Resolve dialog_handleStop dialog_processAndSpeak dialog_finally
  : keeps.

Lemma dialog_catch r a : keeps dialog_ok (processAndSpeak_catch r a).
Proof. unfold processAndSpeak_catch. keeps_tac. Qed.

#[local] Hint Resolve dialog_catch : keeps.

Lemma dialog_resume r a st o : keeps dialog_ok (processAndSpeak_resume r a st o).
Proof. unfold processAndSpeak_resume. destruct st, o; keeps_tac. Qed.

Lemma dialog_handleDescribe r : keeps dialog_ok (handleDescribe r).
Proof. unfold handleDescribe. keeps_tac. Qed.

Lemma dialog_handlePerson r : keeps dialog_ok (handlePerson r).
Proof. unfold handlePerson. keeps_tac. Qed.

Lemma dialog_handleAsk r : keeps dialog_ok (handleAsk r).
Proof. unfold handleAsk. keeps_tac. Qed.

Lemma dialog_handleLive r : keeps dialog_ok (handleLive r).
Proof. unfold handleLive. keeps_tac. Qed.

Lemma dialog_askEffect r : keeps dialog_ok (askEffect r).
Proof. unfold askEffect. keeps_tac. Qed.

Lemma dialog_onClose : keeps dialog_ok onClose.
Proof. unfold onClose. keeps_tac. Qed.

Lemma dialog_handleLive_stopped o : keeps dialog_ok (handleLive_stopped o).
Proof. unfold handleLive_stopped. keeps_tac. Qed.

Lemma dialog_handleLive_started r o : keeps dialog_ok (handleLive_started r o).
Proof. unfold handleLive_started. keeps_tac. Qed.

(** The remember intent opens the dialog only with a frame in hand. *)
Lemma dialog_handleRemember r : keeps dialog_ok (handleRemember r).
Proof.
  intros w H. unfold handleRemember, bind, captureFrame, if_frame.
  destruct (isProcessing r); [exact H|].
  destruct (webcam w) as [f|]; [|exact H].
  destruct (truthy f) eqn:T; [|exact H].
  intros _. exact T.
Qed.

(** Saving closes the dialog. *)
Lemma dialog_handleSavePerson r nm : keeps dialog_ok (handleSavePerson r nm).
Proof.
  intros w _. destruct (handleSavePerson_cases r w nm) as (sfx & es & E & _).
  rewrite E. intros H. discriminate.
Qed.

Lemma dialog_dispatch e : keeps dialog_ok (dispatch e).
Proof.
  intros w. unfold dispatch, settle, sessionClosed.
  destruct e;
    try (destruct (nth_error (pending w) i) as [[r a st| |r|]|]);
    first [ apply dialog_handleDescribe | apply dialog_handlePerson
          | apply dialog_handleRemember | apply dialog_handleAsk
          | apply dialog_handleLive | apply dialog_handleSavePerson
          | apply (keeps_bind dialog_ok (drop_pending i));
              [ apply keeps_drop_pending
              | intros _;
                first [ apply dialog_resume | apply dialog_handleLive_stopped
                      | apply dialog_handleLive_started | apply dialog_onClose ] ]
          | keeps_tac ].
Qed.

(** In every reachable world, an open dialog holds a frame. *)
Lemma reachable_dialog_ok w : reachable w -> dialog_ok (ui w).
Proof.
  intros [tr <-].
  assert (G : forall tr w0, dialog_ok (ui w0) -> dialog_ok (ui (fst (run tr w0)))).
  { clear tr. induction tr as [|e tr IH]; intros w0 H; [exact H|].
    cbn [run].
    pose proof (keeps_step dialog_ok dialog_askEffect e w0
                  (dialog_dispatch e w0) H) as S.
    destruct (step e w0) as [w1 l1]. specialize (IH w1 S).
    now destruct (run tr w1) as [w2 l2]. }
  apply G. intros H. discriminate.
Qed.

(** *** The processing flag and the current action *)

Lemma processing_lower : keeps processing_ok (setIsProcessing false).
Proof. apply keeps_modify_ui. intros r _ H. discriminate. Qed.

Lemma processing_set_action a : keeps processing_ok (setCurrentAction (Some a)).
Proof. apply keeps_modify_ui. intros r _ _ H. discriminate. Qed.

Lemma processing_handleStop r : keeps processing_ok (handleStop r).
Proof.
  intros w _. rewrite handleStop_eq. intros H. discriminate.
Qed.

Lemma processing_processAndSpeak r a : keeps processing_ok (processAndSpeak r a).
Proof. intros w _ _ H. discriminate. Qed.

Lemma processing_finally r a : keeps processing_ok (processAndSpeak_finally r a).
Proof.
  intros w H. unfold processAndSpeak_finally, when.
  destruct (action_eqb _ _); [|exact H]. intros H'. discriminate.
Qed.

#[local] Hint Resolve processing_lower processing_set_action processing_handleStop
  processing_processAndSpeak processing_finally : keeps.

Lemma processing_catch r a : keeps processing_ok (processAndSpeak_catch r a).
Proof. unfold processAndSpeak_catch. keeps_tac. Qed.

#[local] Hint Resolve processing_catch : keeps.

Lemma processing_resume r a st o :
  keeps processing_ok (processAndSpeak_resume r a st o).
Proof. unfold processAndSpeak_resume. destruct st, o; keeps_tac. Qed.

Lemma processing_handleDescribe r : keeps processing_ok (handleDescribe r).
Proof. unfold handleDescribe. keeps_tac. Qed.

Lemma processing_handlePerson r : keeps processing_ok (handlePerson r).
Proof. unfold handlePerson. keeps_tac. Qed.

Lemma processing_handleRemember r : keeps processing_ok (handleRemember r).
Proof. unfold handleRemember. keeps_tac. Qed.

Lemma processing_handleSavePerson r nm :
  keeps processing_ok (handleSavePerson r nm).
Proof. unfold handleSavePerson, setRememberedPeople. keeps_tac. Qed.

Lemma processing_handleAsk r : keeps processing_ok (handleAsk r).
Proof. unfold handleAsk. keeps_tac. Qed.

(** The live intent keeps it when it starts live mode, and up to its await
    when it stops live mode. *)
Lemma processing_handleLive r : keeps processing_ok (handleLive r).
Proof. unfold handleLive. keeps_tac. Qed.

Lemma processing_askEffect r : keeps processing_ok (askEffect r).
Proof. unfold askEffect. keeps_tac. Qed.

(** Every event keeps the invariant, but for the three that end live mode. *)
Lemma processing_ok_step e w :
  ends_live e w = false ->
  processing_ok (ui w) -> processing_ok (ui (fst (step e w))).
Proof.
  intros L. apply (keeps_step processing_ok processing_askEffect).
  revert L. unfold exec, dispatch, settle, sessionClosed, ends_live.
  destruct e;
    try (destruct (nth_error (pending w) i) as [[r a st| |r|]|]);
    try (destruct o); try discriminate; intros _;
    first [ apply processing_handleDescribe | apply processing_handlePerson
          | apply processing_handleRemember | apply processing_handleAsk
          | apply processing_handleLive | apply processing_handleSavePerson
          | apply (keeps_bind processing_ok (drop_pending i));
              [ apply keeps_drop_pending
              | intros _; first [ apply processing_resume | apply keeps_ret ] ]
          | apply (keeps_modify_ui processing_ok); intros ? H; exact H
          | apply keeps_set_webcam
          | apply keeps_ret ].
Qed.

(** Hence the invariant holds along every run in which live mode is never
    ended by one of those three events. *)
Lemma processing_ok_run tr : forall w,
  never_ends_live tr w = true ->
  processing_ok (ui w) -> processing_ok (ui (fst (run tr w))).
Proof.
  induction tr as [|e tr IH]; intros w N H; [exact H|].
  cbn [never_ends_live] in N. apply andb_true_iff in N. destruct N as [N1 N2].
  apply negb_true_iff in N1.
  pose proof (processing_ok_step e w N1 H) as S.
  cbn [run]. destruct (step e w) as [w1 l1]. cbn [fst] in *.
  specialize (IH w1 N2 S). now destruct (run tr w1) as [w2 l2].
Qed.

(** ** The event of a global stop *)

Lemma askEffect_not_asking r w : asking r = false -> askEffect r w = (tt, w, []).
Proof. unfold askEffect, asking. now intros ->. Qed.

(** With nothing to be asked, the effects only see to the live interval. *)
Lemma runEffects_quiet prev w :
  asking (ui w) = false ->
  runEffects prev (ui w) w =
    (tt, mkWorld (ui w) (isCancelledRef w) (webcam w) (clock w) (timeouts w)
           (committed_interval prev w) (pending w), []).
Proof.
  intros A. unfold runEffects, committed_interval.
  destruct (same_live_deps prev (ui w)); cbn [negb];
    destruct (negb (same_ask_deps prev (ui w)));
    unfold when, bind, liveFeedCleanup, clearInterval, set_intervalId, ret;
    cbv beta iota zeta;
    rewrite ?(askEffect_not_asking _ _ A); cbv beta iota zeta;
    unfold liveFeedEffect, when, setInterval, set_intervalId, ret;
    try (destruct (isLive (ui w))); cbn; try reflexivity;
    destruct w; reflexivity.
Qed.

Lemma commit_quiet fuel prev w :
  asking (ui w) = false ->
  commit (S fuel) prev w =
    (tt, mkWorld (ui w) (isCancelledRef w) (webcam w) (clock w) (timeouts w)
           (committed_interval prev w) (pending w), []).
Proof.
  intros A.
  change (commit (S fuel) prev w)
    with ((runEffects prev (ui w) ;; commit fuel (ui w)) w).
  unfold bind. rewrite (runEffects_quiet prev w A).
  set (w1 := mkWorld _ _ _ _ _ _ _).
  change (ui w) with (ui w1). now rewrite commit_same.
Qed.

(** The stop leaves the report of the recognition hook alone. *)
Lemma asking_stopped_ui r u : asking (stopped_ui r u) = asking u.
Proof.
  unfold stopped_ui. now destruct (showRememberModal r), (isLive r).
Qed.

(** The live intent outside live mode, field by field. *)
Lemma handleLive_start_eq r w :
  isLive r = false ->
  handleLive r w =
    (tt, mkWorld (with_isLive true
                    (with_currentAction (Some "live") (stopped_ui r (ui w))))
           true (webcam w) (clock w) (timeouts w ++ [clock w + 100])
           (intervalId w) (pending w ++ [POnClose; PLiveStart r]),
     (stop_calls r ++ [LiveStart (voice (language r))])%list).
Proof.
  intros H. unfold handleLive. rewrite H. unfold bind at 1.
  rewrite handleStop_eq. cbn. now rewrite <- app_assoc.
Qed.

(** The event of a global stop, with the commit that follows it, when the
    recognition holds no question to be asked: the cancellation flag is up,
    its timer is set 100 ms ahead, the processing flag is down and, unless
    live mode is being started, no action is current; what was pending still
    is, at the same places. *)
Lemma step_stop e w :
  stops e (ui w) = true -> asking (ui w) = false ->
  let w' := fst (step e w) in
  isCancelledRef w' = true /\ clock w' = clock w /\
  timeouts w' = (timeouts w ++ [clock w + 100])%list /\
  isProcessing (ui w') = false /\
  (e <> EvLive -> currentAction (ui w') = None) /\
  exists l, pending w' = (pending w ++ l)%list.
Proof.
  intros S A.
  destruct e; try discriminate; cbn [stops] in S; unfold step, bind;
    cbn [dispatch].
  1-3: unfold handleDescribe, handlePerson, handleAsk; rewrite S;
    rewrite handleStop_eq;
    rewrite commit_quiet by (cbn [ui]; now rewrite asking_stopped_ui);
    cbn [fst snd ui isCancelledRef clock timeouts pending];
    repeat split; exists []; now rewrite app_nil_r.
  apply negb_true_iff in S. rewrite (handleLive_start_eq _ _ S).
  rewrite commit_quiet
    by (cbn [ui]; unfold asking in *; cbn; unfold stopped_ui;
        now destruct (showRememberModal (ui w)), (isLive (ui w))).
  cbn [fst snd ui isCancelledRef clock timeouts pending].
  repeat split; [now intros []|]. eexists. reflexivity.
Qed.

Lemma run_then_elapse e n w :
  fst (run [e; EvElapse n] w) = fst (elapse n (fst (step e w))).
Proof.
  cbn [run]. destruct (step e w) as [w1 l1]. cbn [step fst].
  now destruct (elapse n w1).
Qed.

(** A result that finds the cancellation flag down is spoken, with the voice
    and rate of the render that dispatched the call, and the commit that
    follows has nothing to do. *)
Lemma step_result_spoken i r a text w :
  nth_error (pending w) i = Some (PProcessAndSpeak r a AwaitAction) ->
  isCancelledRef w = false ->
  snd (step (EvSettle i (Fulfilled text)) w)
    = [(clock w, Speak text (voice (language r)) (speechSpeed r))].
Proof.
  intros N F.
  unfold step, bind. cbn [dispatch]. unfold settle. rewrite N.
  unfold bind, drop_pending, processAndSpeak_resume, bind, get_isCancelledRef,
    speak, emit, await.
  cbv beta iota zeta. cbn [isCancelledRef]. rewrite F.
  cbn [ui isCancelledRef webcam clock timeouts intervalId pending app].
  set (wd := mkWorld _ _ _ _ _ _ _).
  change (ui w) with (ui wd). now rewrite commit_same.
Qed.

(** * The claims *)

(** C1, evaluated. From the initial idle state the describe intent captures
    frame A and dispatches the call. Whether the call resolves with "A cat."
    or rejects, with the cancellation flag down, the text (or the apology) is
    spoken; and when the utterance is over and nothing of the call is left
    pending, the current action still is 'describe', which is the action of
    the call, and yet the processing flag is still up and the current action
    is not cleared. *)
Theorem describe_completion_does_not_return_to_idle :
  let resolved :=
    run (describe_from_idle ++
         [EvSettle 0 (Fulfilled "A cat."); EvSettle 0 (Fulfilled "")])
      initialWorld in
  let rejected :=
    run (describe_from_idle ++ [EvSettle 0 Rejected; EvSettle 0 (Fulfilled "")])
      initialWorld in
  spoken (map snd (snd resolved)) = ["Analyzing the scene..."; "A cat."] /\
  spoken (map snd (snd rejected))
    = ["Analyzing the scene..."; "Sorry, I encountered an error. Please try again."] /\
  completed_but_processing (fst resolved) /\
  completed_but_processing (fst rejected).
Proof.
  vm_compute. repeat split.
Qed.

(** C2, as stated, fails. A describe call is in flight when the global stop
    is processed (the describe intent triggered again runs that very stop).
    The call resolves 150 ms later, when the timer of the stop has lowered
    the cancellation flag: "A cat." is spoken. *)
Lemma late_completion_is_spoken :
  fst (step EvDescribe (fst (run describe_from_idle initialWorld)))
    = stopped_describe /\
  isCancelledRef stopped_describe = true /\
  snd (run [EvElapse 150; EvSettle 0 (Fulfilled "A cat.")] stopped_describe)
    = [(150, Speak "A cat." Zephyr 1%Q)].
Proof.
  vm_compute. repeat split.
Qed.

(** C2, amended. The global stop is run by the intent of the single-shot
    action that is current and by the live intent outside live mode. After
    such an event, when the recognition holds no question that the render
    which follows would dispatch, the cancellation flag is up, and a
    completion of a call that was in flight at the stop, arriving less than
    100 ms later with nothing else handled in between and no timer of an
    earlier stop falling due, is discarded: nothing is called (so nothing is
    spoken) and nothing changes but that the call has ended. This holds for a
    result and for an error, and for every point at which the call may be
    suspended; after the stop made by the live intent it is stated for the
    calls dispatched from a render that did not yet show their action as
    current. From 100 ms after the stop on, the flag is down again, and a
    result that arrives then is spoken. *)
Theorem completion_in_guard_window_is_discarded (e : Event) (w : World) :
  stops e (ui w) = true -> asking (ui w) = false ->
  (forall n i r a st o,
     n < 100 ->
     (forall t, In t (timeouts w) -> clock w + n < t) ->
     nth_error (pending w) i = Some (PProcessAndSpeak r a st) ->
     (e = EvLive -> action_eqb (currentAction r) (Some a) = false) ->
     let w1 := fst (run [e; EvElapse n] w) in
     isCancelledRef w1 = true /\
     step (EvSettle i o) w1 = (exec (drop_pending i) w1, [])) /\
  (forall m i r a text,
     100 <= m ->
     nth_error (pending w) i = Some (PProcessAndSpeak r a AwaitAction) ->
     let w1 := fst (run [e; EvElapse m] w) in
     isCancelledRef w1 = false /\
     snd (step (EvSettle i (Fulfilled text)) w1)
       = [(clock w + m, Speak text (voice (language r)) (speechSpeed r))]).
Proof.
  intros S A.
  destruct (step_stop e w S A) as (F & C & T & P & K & (l & L)).
  split.
  - intros n i r a st o Hn Ht Hi Hl w1. subst w1. rewrite run_then_elapse.
    set (w' := fst (step e w)) in *. set (w1 := fst (elapse n w')).
    destruct (elapse_frame n w') as (U1 & _ & P1 & _). fold w1 in U1, P1.
    assert (F1 : isCancelledRef w1 = true).
    { apply elapse_keeps_flag; [exact F|]. rewrite T, C. intros t Hin.
      apply in_app_or in Hin. destruct Hin as [Hin|[<-|[]]]; [now apply Ht | lia]. }
    split; [exact F1|].
    assert (N : nth_error (pending w1) i = Some (PProcessAndSpeak r a st)).
    { rewrite P1, L, nth_error_app1; [exact Hi|].
      apply nth_error_Some. now rewrite Hi. }
    unfold step, bind. cbn [dispatch]. unfold settle. rewrite N.
    unfold bind, drop_pending. cbv beta iota zeta.
    set (wd := mkWorld _ _ _ _ _ _ _).
    assert (Fd : isCancelledRef wd = true) by exact F1.
    destruct (completion_while_cancelled r a st o wd Fd) as [E _].
    rewrite E.
    assert (Q : processAndSpeak_finally r a wd = (tt, wd, [])).
    { unfold processAndSpeak_finally, when.
      destruct (action_eqb (currentAction r) (Some a)) eqn:B; [|reflexivity].
      apply clearing_cleared_state; cbn [ui wd]; rewrite U1; [exact P|].
      apply K. intros ->. specialize (Hl eq_refl). congruence. }
    rewrite Q. change (ui w1) with (ui wd). rewrite commit_same.
    reflexivity.
  - intros m i r a text Hm Hi w1. subst w1. rewrite run_then_elapse.
    set (w' := fst (step e w)) in *. set (w1 := fst (elapse m w')).
    destruct (elapse_frame m w') as (_ & _ & P1 & K1). fold w1 in P1, K1.
    assert (F1 : isCancelledRef w1 = false).
    { apply (elapse_lowers_flag m _ (clock w + 100)).
      - rewrite T. apply in_or_app. right. now left.
      - rewrite C. lia.
      - rewrite C. lia. }
    split; [exact F1|].
    rewrite (step_result_spoken i r a text w1); [now rewrite K1, C | | exact F1].
    rewrite P1, L, nth_error_app1; [exact Hi|].
    apply nth_error_Some. now rewrite Hi.
Qed.

(** The guard window at work. A describe call is in flight; 99 ms after the
    describe intent has stopped it, and 99 ms after the live intent has, its
    result and its failure are discarded; 100 ms after the stop its result is
    spoken. *)
Lemma completion_in_guard_window_is_discarded_witness :
  let w := fst (run describe_from_idle initialWorld) in
  let toggled := fst (run [EvDescribe; EvElapse 99] w) in
  let starting := fst (run [EvLive; EvElapse 99] w) in
  (isCancelledRef toggled = true /\
   step (EvSettle 0 (Fulfilled "A cat.")) toggled
     = (exec (drop_pending 0) toggled, [])) /\
  (isCancelledRef starting = true /\
   step (EvSettle 0 Rejected) starting = (exec (drop_pending 0) starting, [])) /\
  snd (step (EvSettle 0 (Fulfilled "A cat."))
         (fst (run [EvDescribe; EvElapse 100] w)))
    = [(100, Speak "A cat." Zephyr 1%Q)].
Proof.
  intros w.
  destruct (completion_in_guard_window_is_discarded EvDescribe w eq_refl eq_refl)
    as [D1 D2].
  destruct (completion_in_guard_window_is_discarded EvLive w eq_refl eq_refl)
    as [L1 _].
  split; [|split].
  - apply (D1 99 0 initialRender "describe" AwaitAction (Fulfilled "A cat."));
      [lia | intros t H; destruct H | reflexivity | discriminate].
  - apply (L1 99 0 initialRender "describe" AwaitAction Rejected);
      [lia | intros t H; destruct H | reflexivity | reflexivity].
  - apply (D2 100 0 initialRender "describe" "A cat."); [lia | reflexivity].
Defined.




(** C4, evaluated. Live mode starts at time 0 with frame A in front of the
    camera, and the frame is pushed at 500, 1000 and 1500 ms. At 1700 ms the
    live intent begins the teardown ([liveService.stop()] is called and
    awaited); the teardown takes 400 ms, and the interval, still installed,
    pushes a fourth frame at 2000 ms; once the live flag is cleared nothing
    more is pushed. When the same session is ended at 1700 ms by the global
    stop (the describe intent, triggered at 1600 ms, is triggered again),
    which clears the live flag in the handler itself, nothing is pushed after
    1500 ms. Both runs are followed up to 3000 ms. *)
Theorem frame_pushed_during_teardown :
  let feed := filter (fun te : nat * Effect =>
                        match snd te with
                        | LiveStop | SendVideoFrame _ => true
                        | _ => false
                        end) in
  let toggled :=
    run (live_session_1700 ++
         [EvElapse 400; EvSettle 1 (Fulfilled ""); EvElapse 900]) initialWorld in
  let stopped :=
    run [EvWebcam (Some "A"); EvLive; EvSettle 1 (Fulfilled "");
         EvElapse 1600; EvDescribe; EvElapse 100; EvDescribe; EvElapse 1300]
      initialWorld in
  clock (fst toggled) = 3000 /\ clock (fst stopped) = 3000 /\
  feed (snd toggled)
    = [(500, SendVideoFrame "A"); (1000, SendVideoFrame "A");
       (1500, SendVideoFrame "A"); (1700, LiveStop); (2000, SendVideoFrame "A")] /\
  feed (snd stopped)
    = [(500, SendVideoFrame "A"); (1000, SendVideoFrame "A");
       (1500, SendVideoFrame "A"); (1700, LiveStop)].
Proof.
  vm_compute. repeat split.
Qed.

(** C5, as stated, fails. A describe call is dispatched under voice Zephyr
    and rate 1; while it is in flight the settings change to voice Puck and
    rate 2; the result is spoken with Zephyr at rate 1. *)
Lemma result_ignores_changed_settings :
  let w := settings_changed_in_flight in
  voice (language (ui w)) = Puck /\ speechSpeed (ui w) = 2%Q /\
  calls (settle 0 (Fulfilled "A cat.")) w = [Speak "A cat." Zephyr 1%Q].
Proof.
  vm_compute. repeat split.
Qed.

(** C5, amended. The voice and rate of the result utterance are those of the
    render in which the call was dispatched: [processAndSpeak] parks its own
    render with the call, and when the call resolves (cancellation flag down)
    the text is spoken with the voice and rate of that render, whatever the
    settings are by then. *)
Theorem result_voice_is_dispatch_snapshot
    (r : Render) (a text : string) (i : nat) (w : World) :
  nth_error (pending w) i = Some (PProcessAndSpeak r a AwaitAction) ->
  isCancelledRef w = false ->
  calls (settle i (Fulfilled text)) w
    = [Speak text (voice (language r)) (speechSpeed r)]
  /\ forall w0, pending (exec (processAndSpeak r a) w0)
                = (pending w0 ++ [PProcessAndSpeak r a AwaitAction])%list.
Proof.
  intros Hp Hc. split; [|reflexivity].
  unfold calls, settle. rewrite Hp.
  unfold bind, drop_pending, processAndSpeak_resume, get_isCancelledRef.
  simpl. now rewrite Hc.
Qed.

(** The snapshot at work: the settings changed while the call was in flight. *)
Lemma result_voice_is_dispatch_snapshot_witness :
  calls (settle 0 (Fulfilled "A cat.")) settings_changed_in_flight
    = [Speak "A cat." Zephyr 1%Q].
Proof.
  apply (result_voice_is_dispatch_snapshot
           initialRender "describe" "A cat." 0 settings_changed_in_flight);
    reflexivity.
Defined.

(** C6. When frame capture returns no frame while the orchestrator is idle,
    the describe, identify-person and remember intents do nothing at all: the
    world (state, dialog, pending calls, timers) is unchanged and no call is
    made on any collaborator, so nothing is requested and nothing is spoken. *)
Theorem capture_unavailable_aborts_silently (w : World) :
  Idle (ui w) -> webcam w = None ->
  step EvDescribe w = (w, []) /\
  step EvPerson w = (w, []) /\
  step EvRemember w = (w, []).
Proof.
  intros (Ha & _ & _) Hcam.
  assert (Hf : truthy_opt (webcam w) = false) by now rewrite Hcam.
  repeat split; apply step_silent; try discriminate; simpl.
  - apply handleDescribe_no_frame; [now rewrite Ha | exact Hf].
  - apply handlePerson_no_frame; [now rewrite Ha | exact Hf].
  - now apply handleRemember_no_frame.
Qed.

(** The silent abort at work: the initial world has no frame. *)
Lemma capture_unavailable_witness :
  step EvDescribe initialWorld = (initialWorld, []) /\
  step EvPerson initialWorld = (initialWorld, []) /\
  step EvRemember initialWorld = (initialWorld, []).
Proof.
  apply (capture_unavailable_aborts_silently initialWorld).
  - repeat split.
  - reflexivity.
Defined.

(** C7. In a reachable world whose remember dialog is open, a frame is
    pending; saving closes the dialog and discards the pending frame in every
    case; with a name that is not all whitespace it appends exactly the
    record of the trimmed name and the pending frame, and speaks the
    confirmation made of the trimmed name; with an empty or all-whitespace
    name it appends nothing and says nothing. "  Alice  " is trimmed to
    "Alice"; the empty name and "   " are all whitespace. *)
Theorem save_person_in_dialog (w : World) (nm : string) :
  reachable w -> showRememberModal (ui w) = true ->
  exists frame,
    frameToRemember (ui w) = Some frame /\
    showRememberModal (ui (fst (step (EvSavePerson nm) w))) = false /\
    frameToRemember (ui (fst (step (EvSavePerson nm) w))) = None /\
    (whitespace_only nm = false ->
       rememberedPeople (ui (fst (step (EvSavePerson nm) w)))
         = (rememberedPeople (ui w) ++ [mkPerson (trim nm) frame])%list /\
       snd (step (EvSavePerson nm) w)
         = [(clock w, Speak ("I'll remember " ++ trim nm ++ ".")
                        (voice (language (ui w))) (speechSpeed (ui w)))]) /\
    (whitespace_only nm = true ->
       rememberedPeople (ui (fst (step (EvSavePerson nm) w)))
         = rememberedPeople (ui w) /\
       snd (step (EvSavePerson nm) w) = []) /\
    trim "  Alice  " = "Alice" /\
    whitespace_only "" = true /\ whitespace_only "   " = true.
Proof.
  intros Hr Hs.
  pose proof (reachable_dialog_ok w Hr Hs) as Hf.
  destruct (frameToRemember (ui w)) as [frame|] eqn:F; [|discriminate].
  cbn in Hf. exists frame. split; [reflexivity|].
  rewrite step_save_person. unfold exec, calls.
  destruct (whitespace_only nm) eqn:Hn.
  - rewrite handleSavePerson_discards by now left.
    repeat split; try discriminate; try reflexivity.
  - rewrite (handleSavePerson_saves (ui w) w nm frame F Hf Hn).
    repeat split; try discriminate; try reflexivity.
Qed.

(** The save at work: frame A remembered under the name typed as "  Alice  ". *)
Lemma save_person_in_dialog_witness :
  let w := fst (run [EvWebcam (Some "A"); EvRemember] initialWorld) in
  reachable w /\ showRememberModal (ui w) = true /\
  rememberedPeople (ui (fst (step (EvSavePerson "  Alice  ") w)))
    = [mkPerson "Alice" "A"].
Proof.
  intros w.
  assert (R : reachable w) by (exists [EvWebcam (Some "A"); EvRemember]; reflexivity).
  assert (S : showRememberModal (ui w) = true) by reflexivity.
  split; [exact R|]. split; [exact S|].
  destruct (save_person_in_dialog w "  Alice  " R S)
    as (frame & F & _ & _ & A & _).
  injection F as <-. exact (proj1 (A eq_refl)).
Defined.

(** C8, evaluated. Live mode is started from the initial state and, while it
    is on, the describe intent dispatches a call (the handler tests the
    processing flag only). If the live service now closes the session, or if
    the start, still awaited, fails, the live flag and the current action are
    cleared but the processing flag stays up: the orchestrator is not idle,
    and the describe intent is refused. *)
Theorem live_end_while_processing_is_not_idle :
  let closed := fst (run (describe_while_live ++ [EvSessionClosed 0]) initialWorld) in
  let failed := run (describe_while_live_starts ++ [EvSettle 1 Rejected]) initialWorld in
  isLive (ui closed) = false /\ currentAction (ui closed) = None /\
  isProcessing (ui closed) = true /\ ~ Idle (ui closed) /\
  spoken (map snd (snd failed))
    = ["Analyzing the scene..."; "Could not start live mode."] /\
  isLive (ui (fst failed)) = false /\ currentAction (ui (fst failed)) = None /\
  isProcessing (ui (fst failed)) = true /\ ~ Idle (ui (fst failed)) /\
  step EvDescribe closed = (closed, []).
Proof.
  vm_compute. repeat split; try (intros (_ & H & _); discriminate).
Qed.

(** C9, evaluated. Live mode is started, the describe intent dispatches a
    call while live, and the live intent toggles live mode off: when the
    teardown is done the current action is cleared and the processing flag is
    still up. The state is reachable and breaks the invariant. *)
Theorem live_toggle_breaks_processing_invariant :
  let w := fst (run (describe_while_live ++ [EvLive; EvSettle 2 (Fulfilled "")])
                  initialWorld) in
  reachable w /\ isProcessing (ui w) = true /\ currentAction (ui w) = None /\
  ~ processing_ok (ui w).
Proof.
  split; [|split; [reflexivity | split; [reflexivity|]]].
  - now exists (describe_while_live ++ [EvLive; EvSettle 2 (Fulfilled "")])%list.
  - intros H. now apply H.
Qed.

(** C10. Whatever the state and the name, saving a person touches only the
    remembered-people collection (the old records stay, in order, and at most
    one record is added at the end), the dialog flag and the pending frame.
    The current action, the processing and live flags, the language, the
    speech rate, the cancellation flag and everything else in the world are
    as before; this holds for the handler run from any render and for the
    whole event with the commit that follows it. *)
Theorem save_person_frame (r : Render) (nm : string) (w : World) :
  save_unchanged w (exec (handleSavePerson r nm) w) /\
  save_unchanged w (fst (step (EvSavePerson nm) w)).
Proof.
  assert (H : forall r0, save_unchanged w (exec (handleSavePerson r0 nm) w)).
  { intros r0. destruct (handleSavePerson_cases r0 w nm) as (suffix & es & E & L).
    unfold exec, save_unchanged. rewrite E. cbn.
    repeat (split; [reflexivity|]). now exists suffix. }
  split; [apply H|]. rewrite step_save_person. apply H.
Qed.

(** * Further properties of the component *)

(** ** The cancellation flag and its timers *)

(** A timeout that is not yet due is still waiting. *)
Lemma elapse_keeps_timeout n : forall w t,
  In t (timeouts w) -> clock w + n < t -> In t (timeouts (fst (elapse n w))).
Proof.
  induction n as [|n IH]; intros w t Hin H; [exact Hin|].
  rewrite elapse_S. cbn [fst]. rewrite tick_eq. cbn [fst snd].
  apply IH; cbn [timeouts clock]; [|lia].
  unfold tick_timeouts. apply filter_In. split; [exact Hin|].
  apply negb_true_iff. apply Nat.leb_gt. lia.
Qed.

Lemma handleStop_world r w :
  exec (handleStop r) w =
    mkWorld (stopped_ui r (ui w)) true (webcam w) (clock w)
      (timeouts w ++ [clock w + 100]) (intervalId w) (pending w).
Proof. unfold exec. now rewrite handleStop_eq. Qed.

(** X1. The global stop holds the cancellation flag up for 100 ms and no
    longer: once 100 ms or more have passed after a stop, with nothing else
    handled, the flag is down again, whatever the state the stop was made
    in. *)
Theorem stop_flag_is_down_after_100ms (r0 : Render) (w0 : World) (n : nat) :
  100 <= n ->
  isCancelledRef (exec (handleStop r0) w0) = true /\
  isCancelledRef (fst (elapse n (exec (handleStop r0) w0))) = false.
Proof.
  intros Hn. rewrite handleStop_world. split; [reflexivity|].
  apply (elapse_lowers_flag n _ (clock w0 + 100)); cbn [timeouts clock]; try lia.
  apply in_or_app. right. now left.
Qed.

(** The flag of the stopped describe call, 100 ms later. *)
Lemma stop_flag_is_down_after_100ms_witness :
  isCancelledRef stopped_describe = true /\
  isCancelledRef (fst (elapse 100 stopped_describe)) = false.
Proof.
  apply (stop_flag_is_down_after_100ms
           (ui (fst (run describe_from_idle initialWorld)))
           (fst (run describe_from_idle initialWorld)) 100).
  lia.
Defined.

(** X2. The timers of the stops are never cancelled, so the timer of an
    earlier stop cuts the guard window of a later one short: when a second
    stop follows the first after [n] ms, [n] below 100, the flag raised by the
    second stop is lowered [100 - n] ms after it. *)
Theorem earlier_stop_timer_cuts_window_short
    (r1 r2 : Render) (w0 : World) (n : nat) :
  n < 100 ->
  let w2 := exec (handleStop r2) (fst (elapse n (exec (handleStop r1) w0))) in
  isCancelledRef w2 = true /\
  isCancelledRef (fst (elapse (100 - n) w2)) = false.
Proof.
  intros Hn w2. subst w2. rewrite (handleStop_world r2). split; [reflexivity|].
  destruct (elapse_frame n (exec (handleStop r1) w0)) as (_ & _ & _ & C).
  rewrite handleStop_world in C. cbn [clock] in C.
  apply (elapse_lowers_flag _ _ (clock w0 + 100)); cbn [timeouts clock];
    try (rewrite handleStop_world in *; lia).
  apply in_or_app. left. apply elapse_keeps_timeout.
  - rewrite handleStop_world. cbn [timeouts]. apply in_or_app. right. now left.
  - rewrite handleStop_world. cbn [clock]. lia.
Qed.

(** Two stops 60 ms apart: 40 ms after the second the flag is down. *)
Lemma earlier_stop_timer_cuts_window_short_witness :
  let w2 := exec (handleStop initialRender)
              (fst (elapse 60 (exec (handleStop initialRender) initialWorld))) in
  isCancelledRef w2 = true /\
  isCancelledRef (fst (elapse (100 - 60) w2)) = false.
Proof.
  apply (earlier_stop_timer_cuts_window_short initialRender initialRender
           initialWorld 60).
  lia.
Defined.

(** X3. The dispatch of a single-shot action lowers the cancellation flag at
    once. So when a new action is dispatched after a stop, the result of the
    call that was stopped, arriving later, is spoken after all, with the
    voice and rate of the render that dispatched that old call. *)
Theorem new_dispatch_revives_stopped_call
    (r0 r r' : Render) (a a' text : string) (w : World) :
  let w1 := exec (processAndSpeak r a) (exec (handleStop r0) w) in
  isCancelledRef (exec (handleStop r0) w) = true /\
  isCancelledRef w1 = false /\
  calls (processAndSpeak_resume r' a' AwaitAction (Fulfilled text)) w1
    = [Speak text (voice (language r')) (speechSpeed r')].
Proof.
  cbn zeta. rewrite handleStop_world. repeat split.
Qed.

(** ** Intents that are refused, and the ask intent *)

(** An event whose handler only makes calls is followed by an empty commit. *)
Lemma step_calls_only e w es :
  (forall ms, e <> EvElapse ms) ->
  dispatch e w = (tt, w, es) -> step e w = (w, stamp (clock w) es).
Proof.
  intros Hne H.
  destruct e; try (now exfalso; eapply Hne);
    unfold step, bind; rewrite H, commit_same, app_nil_r; reflexivity.
Qed.

(** X4. While a call is being processed, every intent but the one of the
    current action is refused without a trace: the describe and person
    intents when their action is not the current one, the remember intent
    always, and the ask intent when it is not current and recognition is off.
    The world is unchanged and nothing is called. *)
Theorem busy_orchestrator_refuses_intents (w : World) :
  isProcessing (ui w) = true ->
  (currentAction (ui w) <> Some "describe" -> step EvDescribe w = (w, [])) /\
  (currentAction (ui w) <> Some "person" -> step EvPerson w = (w, [])) /\
  step EvRemember w = (w, []) /\
  (currentAction (ui w) <> Some "ask" -> isListening (ui w) = false ->
     step EvAsk w = (w, [])).
Proof.
  intros Hp.
  assert (N : forall a, currentAction (ui w) <> Some a ->
                        action_eqb (currentAction (ui w)) (Some a) = false).
  { intros a H. destruct (action_eqb _ _) eqn:E; [|reflexivity].
    apply action_eqb_eq in E. contradiction. }
  repeat split; intros; apply step_silent; try discriminate; cbn [dispatch].
  - unfold handleDescribe. now rewrite N, Hp.
  - unfold handlePerson. now rewrite N, Hp.
  - unfold handleRemember. now rewrite Hp.
  - unfold handleAsk. rewrite N by assumption.
    match goal with H : isListening _ = false |- _ => rewrite H end.
    now rewrite Hp.
Qed.

(** A describe call in flight: person, remember and ask are refused. *)
Lemma busy_orchestrator_refuses_intents_witness :
  let w := fst (run describe_from_idle initialWorld) in
  step EvPerson w = (w, []) /\ step EvRemember w = (w, []) /\
  step EvAsk w = (w, []).
Proof.
  intros w.
  destruct (busy_orchestrator_refuses_intents w eq_refl) as (_ & P & R & A).
  split; [apply P; discriminate|]. split; [exact R|].
  apply A; [discriminate | reflexivity].
Defined.

(** X5. The ask intent, when ask is not the current action, drives the
    recognition only. With recognition on it stops it, and says and asks
    nothing; with recognition off and no call being processed it says
    "Listening..." with the voice and rate of the render and starts it. In
    both cases the state of the orchestrator is exactly as before. *)
Theorem ask_intent_drives_recognition (w : World) :
  currentAction (ui w) <> Some "ask" ->
  (isListening (ui w) = true -> step EvAsk w = (w, [(clock w, StopListening)])) /\
  (isListening (ui w) = false -> isProcessing (ui w) = false ->
     step EvAsk w =
       (w, [(clock w, Speak "Listening..." (voice (language (ui w)))
                        (speechSpeed (ui w)));
            (clock w, StartListening)])).
Proof.
  intros Ha.
  assert (N : action_eqb (currentAction (ui w)) (Some "ask") = false).
  { destruct (action_eqb _ _) eqn:E; [|reflexivity].
    apply action_eqb_eq in E. contradiction. }
  split.
  - intros Hl. apply (step_calls_only EvAsk w [StopListening]); [discriminate|].
    cbn [dispatch]. unfold handleAsk. now rewrite N, Hl.
  - intros Hl Hp.
    apply (step_calls_only EvAsk w
             [Speak "Listening..." (voice (language (ui w))) (speechSpeed (ui w));
              StartListening]); [discriminate|].
    cbn [dispatch]. unfold handleAsk. now rewrite N, Hl, Hp.
Qed.

(** From the initial world the ask intent starts the recognition. *)
Lemma ask_intent_drives_recognition_witness :
  step EvAsk initialWorld =
    (initialWorld, [(0, Speak "Listening..." Zephyr 1%Q); (0, StartListening)]).
Proof.
  apply (proj2 (ask_intent_drives_recognition initialWorld ltac:(discriminate)));
    reflexivity.
Defined.

(** ** The ask effect *)

(** A commit in which the live flag has not moved and nothing is to be asked
    does nothing. *)
Lemma commit_not_asking fuel prev w :
  asking (ui w) = false -> same_live_deps prev (ui w) = true ->
  commit fuel prev w = (tt, w, []).
Proof.
  intros A L. destruct fuel as [|fuel]; [reflexivity|].
  cbn [commit]. unfold runEffects, when, bind, ret. rewrite L. cbn [negb].
  destruct (negb (same_ask_deps prev (ui w))); cbv beta iota zeta;
    rewrite ?(askEffect_not_asking _ _ A); cbv beta iota zeta;
    now rewrite commit_same.
Qed.

(** X6. When the recognition reports an empty transcript, whether it is
    still listening or not, nothing is asked: no question is spoken, no remote
    call is made, no call is parked; only the report of the hook changes. *)
Theorem empty_transcript_asks_nothing (w : World) (listening : bool) :
  step (EvRecognition listening "") w =
    (mkWorld (with_recognition listening "" (ui w)) (isCancelledRef w)
       (webcam w) (clock w) (timeouts w) (intervalId w) (pending w), []).
Proof.
  unfold step, bind. cbn [dispatch modify_ui].
  rewrite commit_not_asking; [reflexivity | | apply Bool.eqb_reflx].
  cbn. unfold asking. cbn. apply andb_false_r.
Qed.

Lemma askEffect_asking r w :
  asking r = true -> askEffect r w = (tt, asked_world r w, ask_calls r w).
Proof. unfold askEffect, asking. now intros ->. Qed.

Lemma asked_ask_deps r :
  same_ask_deps r (asked r) = action_eqb (currentAction r) (Some "ask").
Proof.
  unfold same_ask_deps, asked. cbn.
  now rewrite Bool.eqb_reflx, !String.eqb_refl, Voice_eqb_refl, Qeq_bool_refl.
Qed.

(** The commit of a render in which something is to be asked and a
    dependency of the ask effect has moved: the effect runs, and, unless ask
    already was the current action, runs a second time because its own
    dispatch has changed the current action. *)
Lemma commit_asking prev w :
  same_live_deps prev (ui w) = true -> same_ask_deps prev (ui w) = false ->
  asking (ui w) = true ->
  commit 3 prev w =
    if action_eqb (currentAction (ui w)) (Some "ask")
    then (tt, asked_world (ui w) w, ask_calls (ui w) w)
    else (tt, asked_world (asked (ui w)) (asked_world (ui w) w),
          (ask_calls (ui w) w ++ ask_calls (ui w) w)%list).
Proof.
  intros L D A.
  assert (R1 : runEffects prev (ui w) w = (tt, asked_world (ui w) w, ask_calls (ui w) w)).
  { unfold runEffects, when, bind, ret. rewrite L, D. cbn [negb].
    now rewrite (askEffect_asking _ _ A). }
  change (commit 3 prev w)
    with ((runEffects prev (ui w) ;;
           (fun w1 => (runEffects (ui w) (ui w1) ;; commit 1 (ui w1)) w1)) w).
  unfold bind at 1. rewrite R1.
  set (w1 := asked_world (ui w) w).
  assert (L1 : same_live_deps (ui w) (ui w1) = true) by apply Bool.eqb_reflx.
  assert (D1 : same_ask_deps (ui w) (ui w1)
               = action_eqb (currentAction (ui w)) (Some "ask"))
    by apply asked_ask_deps.
  destruct (action_eqb (currentAction (ui w)) (Some "ask")) eqn:E.
  - assert (R2 : runEffects (ui w) (ui w1) w1 = (tt, w1, [])).
    { unfold runEffects, when, bind, ret. now rewrite L1, D1. }
    unfold bind. rewrite R2, commit_same. now rewrite app_nil_r.
  - assert (R2 : runEffects (ui w) (ui w1) w1
                 = (tt, asked_world (ui w1) w1, ask_calls (ui w1) w1)).
    { unfold runEffects, when, bind, ret. rewrite L1, D1. cbn [negb].
      now rewrite (askEffect_asking (ui w1) w1 A). }
    unfold bind. rewrite R2.
    rewrite (commit_noop 1 (ui w1) (asked_world (ui w1) w1));
      [ now rewrite app_nil_r | apply asked_deps | apply asked_deps ].
Qed.

(** X7. When the recognition, which was listening, ends with a transcript
    that is not empty, and ask is not the current action, the question is
    spoken and the remote call is made twice in the same commit, both with
    the frame the camera gives at that moment (also when it gives none): the
    dispatch of the first call changes the current action, on which the ask
    effect depends through [processAndSpeak], and the effect runs again.
    Two calls are left pending, one of a render in which ask is not yet the
    current action and one of a render in which it is. *)
Theorem recognition_result_asks_twice (w : World) (t : string) :
  truthy t = true -> isListening (ui w) = true ->
  currentAction (ui w) <> Some "ask" ->
  let r1 := with_recognition false t (ui w) in
  let asks :=
    [Speak (question t) (voice (language (ui w))) (speechSpeed (ui w));
     AskWithContext (webcam w) t (languageName (language (ui w)))] in
  step (EvRecognition false t) w =
    (mkWorld (asked r1) false (webcam w) (clock w) (timeouts w) (intervalId w)
       (pending w ++ [PProcessAndSpeak r1 "ask" AwaitAction;
                      PProcessAndSpeak (asked r1) "ask" AwaitAction]),
     stamp (clock w) (asks ++ asks)).
Proof.
  intros Ht Hl Ha r1 asks.
  unfold step, bind. cbn [dispatch modify_ui].
  set (w1 := mkWorld (with_recognition false t (ui w)) (isCancelledRef w)
               (webcam w) (clock w) (timeouts w) (intervalId w) (pending w)).
  rewrite (commit_asking (ui w) w1).
  - replace (action_eqb (currentAction (ui w1)) (Some "ask")) with false.
    + cbn [app]. unfold asked_world, w1. cbn [ui pending webcam clock timeouts
        intervalId]. now rewrite <- app_assoc.
    + symmetry. cbn. destruct (action_eqb _ _) eqn:E; [|reflexivity].
      apply action_eqb_eq in E. contradiction.
  - apply Bool.eqb_reflx.
  - unfold same_ask_deps. cbn. now rewrite Hl.
  - unfold asking. cbn. exact Ht.
Qed.

(** The question "what is this", asked from the initial state. *)
Lemma recognition_result_asks_twice_witness :
  let w := fst (run [EvAsk; EvRecognition true ""] initialWorld) in
  map snd (snd (step (EvRecognition false "what is this") w))
    = [Speak (question "what is this") Zephyr 1%Q;
       AskWithContext None "what is this" "English (US)";
       Speak (question "what is this") Zephyr 1%Q;
       AskWithContext None "what is this" "English (US)"].
Proof.
  intros w.
  rewrite (recognition_result_asks_twice w "what is this");
    [reflexivity | reflexivity | reflexivity | discriminate].
Defined.

(** X8. While the hook reports a transcript that is not empty with the
    recognition off, the question is asked again whenever a dependency of the
    ask effect moves: here, when the speech rate is changed to another value,
    the question is spoken again, at the new rate, and the remote call is made
    again. *)
Theorem rate_change_asks_again (w : World) (v : Q) :
  asking (ui w) = true -> Qeq_bool (speechSpeed (ui w)) v = false ->
  exists rest,
    snd (step (EvSetSpeechSpeed v) w) =
      (clock w, Speak (question (transcript (ui w))) (voice (language (ui w))) v)
      :: (clock w, AskWithContext (webcam w) (transcript (ui w))
                     (languageName (language (ui w))))
      :: rest.
Proof.
  intros A Hv. unfold step, bind. cbn [dispatch setSpeechSpeed modify_ui].
  set (w1 := mkWorld (with_speechSpeed v (ui w)) (isCancelledRef w)
               (webcam w) (clock w) (timeouts w) (intervalId w) (pending w)).
  rewrite (commit_asking (ui w) w1).
  - destruct (action_eqb (currentAction (ui w1)) (Some "ask"));
      cbn; eexists; reflexivity.
  - apply Bool.eqb_reflx.
  - unfold same_ask_deps. cbn.
    now rewrite Bool.eqb_reflx, !String.eqb_refl, Voice_eqb_refl, Hv.
  - exact A.
Qed.

(** A question is held; the rate goes from 1 to 2. *)
Lemma rate_change_asks_again_witness :
  let w := fst (run [EvRecognition true ""; EvRecognition false "what is this"]
                  initialWorld) in
  exists rest,
    snd (step (EvSetSpeechSpeed 2%Q) w) =
      (clock w, Speak (question "what is this") Zephyr 2%Q)
      :: (clock w, AskWithContext None "what is this" "English (US)")
      :: rest.
Proof.
  intros w. apply (rate_change_asks_again w 2%Q); reflexivity.
Defined.

(** ** The course of one call *)

(** X9. A call unwinds in at most three settlements. Each time a parked
    [processAndSpeak] is resumed it either ends or parks itself once more,
    with the same render and the same action, strictly nearer to its end; it
    speaks at most once per settlement, and once the apology has been spoken
    it says nothing more, whether the apology succeeds or fails: a failing
    synthesis cannot start a loop of apologies. *)
Theorem call_unwinds (r : Render) (a : string) (st : Stage) (o : Outcome)
    (w : World) :
  (pending (exec (processAndSpeak_resume r a st o) w) = pending w \/
   exists st',
     pending (exec (processAndSpeak_resume r a st o) w)
       = (pending w ++ [PProcessAndSpeak r a st'])%list
     /\ stage_rank st' < stage_rank st) /\
  length (spoken (calls (processAndSpeak_resume r a st o) w)) <= 1 /\
  calls (processAndSpeak_resume r a AwaitApology o) w = [].
Proof.
  assert (F : exists w', processAndSpeak_finally r a w = (tt, w', [])
                         /\ pending w' = pending w).
  { unfold processAndSpeak_finally, when.
    destruct (action_eqb _ _); eexists; split; reflexivity. }
  destruct F as (w' & F & Fp).
  split; [|split].
  - destruct st, o; unfold exec, processAndSpeak_resume, processAndSpeak_catch,
      bind, get_isCancelledRef; try destruct (isCancelledRef w);
      rewrite ?F; cbn [fst snd];
      first [ left; exact Fp
            | right; eexists; split; [reflexivity | cbn; lia] ].
  - destruct st, o; unfold calls, processAndSpeak_resume, processAndSpeak_catch,
      bind, get_isCancelledRef; try destruct (isCancelledRef w);
      rewrite ?F; cbn; lia.
  - unfold calls. cbn. now rewrite F.
Qed.

(** ** The remember dialog and the remembered people *)

(** X10. Closing the remember dialog without saving only hides it: nothing is
    appended, nothing is said, and the captured frame stays in its slot (it
    is cleared by a save only), until the next remember intent replaces it. *)
Theorem closing_dialog_keeps_frame (w : World) :
  step EvModalClose w =
    (mkWorld (with_showRememberModal false (ui w)) (isCancelledRef w)
       (webcam w) (clock w) (timeouts w) (intervalId w) (pending w), []) /\
  frameToRemember (ui (fst (step EvModalClose w))) = frameToRemember (ui w) /\
  rememberedPeople (ui (fst (step EvModalClose w))) = rememberedPeople (ui w).
Proof.
  assert (E : step EvModalClose w =
    (mkWorld (with_showRememberModal false (ui w)) (isCancelledRef w)
       (webcam w) (clock w) (timeouts w) (intervalId w) (pending w), [])).
  { unfold step, bind. cbn [dispatch setShowRememberModal modify_ui].
    rewrite commit_noop; [reflexivity | | apply Bool.eqb_reflx].
    unfold same_ask_deps. cbn.
    now rewrite !Bool.eqb_reflx, !String.eqb_refl, Voice_eqb_refl,
      Qeq_bool_refl, action_eqb_refl. }
  rewrite E. repeat split.
Qed.

Lemma handleRemember_opens r w f :
  isProcessing r = false -> webcam w = Some f -> truthy f = true ->
  handleRemember r w =
    (tt, mkWorld (with_showRememberModal true
                    (with_frameToRemember (Some f) (ui w)))
           (isCancelledRef w) (webcam w) (clock w) (timeouts w)
           (intervalId w) (pending w), []).
Proof.
  intros Hp Hw Hf. unfold handleRemember, bind, captureFrame, if_frame.
  rewrite Hp, Hw, Hf. cbn. now rewrite Hw.
Qed.

(** X11. The remember intent, when no call is being processed and the camera
    gives a frame, opens the dialog on that very frame and does nothing else:
    nothing is said, no call is made, no effect runs again, and a frame left
    in the slot by an earlier dialog is replaced. It is accepted in live mode
    and while listening as well, since only the processing flag is tested. *)
Theorem remember_opens_dialog_on_the_frame (w : World) (f : string) :
  isProcessing (ui w) = false -> webcam w = Some f -> truthy f = true ->
  step EvRemember w =
    (mkWorld (with_showRememberModal true
                (with_frameToRemember (Some f) (ui w)))
       (isCancelledRef w) (webcam w) (clock w) (timeouts w)
       (intervalId w) (pending w), []).
Proof.
  intros Hp Hw Hf. unfold step, bind. cbn [dispatch].
  rewrite (handleRemember_opens (ui w) w f Hp Hw Hf).
  rewrite commit_noop; [reflexivity | | apply Bool.eqb_reflx].
  unfold same_ask_deps. cbn.
  now rewrite !Bool.eqb_reflx, !String.eqb_refl, Voice_eqb_refl,
    Qeq_bool_refl, action_eqb_refl.
Qed.

(** The remember intent in live mode. *)
Lemma remember_opens_dialog_on_the_frame_witness :
  let w := fst (run [EvWebcam (Some "A"); EvLive] initialWorld) in
  isLive (ui w) = true /\
  showRememberModal (ui (fst (step EvRemember w))) = true /\
  frameToRemember (ui (fst (step EvRemember w))) = Some "A".
Proof.
  intros w. split; [reflexivity|].
  rewrite (remember_opens_dialog_on_the_frame w "A" eq_refl eq_refl eq_refl).
  split; reflexivity.
Defined.

(** X12. A person saved in the dialog is known to the next identification:
    after a save with a name that is not all whitespace, the person intent
    (no call being processed, person not current, a frame in front of the
    camera) hands the remote call the collection with the new record at its
    end, after the status cue. *)
Theorem saved_person_reaches_identification
    (w : World) (nm frame g : string) :
  frameToRemember (ui w) = Some frame -> truthy frame = true ->
  whitespace_only nm = false ->
  isProcessing (ui w) = false -> currentAction (ui w) <> Some "person" ->
  webcam w = Some g -> truthy g = true ->
  let w1 := fst (step (EvSavePerson nm) w) in
  calls (handlePerson (ui w1)) w1 =
    [Speak "Looking for a person..." (voice (language (ui w))) (speechSpeed (ui w));
     DescribePerson g
       (rememberedPeople (ui w) ++ [mkPerson (trim nm) frame])
       (languageName (language (ui w)))].
Proof.
  intros F Tf Hn Hp Ha Hw Tg w1. subst w1.
  rewrite step_save_person. cbn [fst]. unfold exec.
  rewrite (handleSavePerson_saves (ui w) w nm frame F Tf Hn). cbn [fst snd].
  unfold calls, handlePerson. cbn [currentAction ui with_frameToRemember
    with_showRememberModal with_rememberedPeople isProcessing].
  replace (action_eqb (currentAction (ui w)) (Some "person")) with false.
  - rewrite Hp. unfold bind, captureFrame, if_frame. cbn [webcam].
    now rewrite Hw, Tg.
  - symmetry. destruct (action_eqb _ _) eqn:E; [|reflexivity].
    apply action_eqb_eq in E. contradiction.
Qed.

(** Alice is saved, and then looked for. *)
Lemma saved_person_reaches_identification_witness :
  let w := fst (run [EvWebcam (Some "A"); EvRemember; EvWebcam (Some "B")]
                  initialWorld) in
  let w1 := fst (step (EvSavePerson "  Alice  ") w) in
  calls (handlePerson (ui w1)) w1 =
    [Speak "Looking for a person..." Zephyr 1%Q;
     DescribePerson "B" [mkPerson "Alice" "A"] "English (US)"].
Proof.
  intros w.
  apply (saved_person_reaches_identification w "  Alice  " "A" "B");
    try reflexivity.
  discriminate.
Defined.

(** Only a save changes the remembered people. *)
Lemma people_handleStop l r : keeps (people_are l) (handleStop r).
Proof. unfold handleStop. keeps_tac. Qed.

Lemma people_processAndSpeak l r a : keeps (people_are l) (processAndSpeak r a).
Proof. unfold processAndSpeak. keeps_tac. Qed.

Lemma people_finally l r a : keeps (people_are l) (processAndSpeak_finally r a).
Proof. unfold processAndSpeak_finally. keeps_tac. Qed.

#[local] Hint Resolve people_handleStop people_processAndSpeak people_finally
  : keeps.

Lemma people_catch l r a : keeps (people_are l) (processAndSpeak_catch r a).
Proof. unfold processAndSpeak_catch. keeps_tac. Qed.

#[local] Hint Resolve people_catch : keeps.

Lemma people_resume l r a st o :
  keeps (people_are l) (processAndSpeak_resume r a st o).
Proof. unfold processAndSpeak_resume. destruct st, o; keeps_tac. Qed.

Lemma people_handleDescribe l r : keeps (people_are l) (handleDescribe r).
Proof. unfold handleDescribe. keeps_tac. Qed.

Lemma people_handlePerson l r : keeps (people_are l) (handlePerson r).
Proof. unfold handlePerson. keeps_tac. Qed.

Lemma people_handleRemember l r : keeps (people_are l) (handleRemember r).
Proof. unfold handleRemember. keeps_tac. Qed.

Lemma people_handleAsk l r : keeps (people_are l) (handleAsk r).
Proof. unfold handleAsk. keeps_tac. Qed.

Lemma people_handleLive l r : keeps (people_are l) (handleLive r).
Proof. unfold handleLive. keeps_tac. Qed.

Lemma people_askEffect l r : keeps (people_are l) (askEffect r).
Proof. unfold askEffect. keeps_tac. Qed.

Lemma people_onClose l : keeps (people_are l) onClose.
Proof. unfold onClose. keeps_tac. Qed.

Lemma people_handleLive_stopped l o : keeps (people_are l) (handleLive_stopped o).
Proof. unfold handleLive_stopped. keeps_tac. Qed.

Lemma people_handleLive_started l r o :
  keeps (people_are l) (handleLive_started r o).
Proof. unfold handleLive_started. keeps_tac. Qed.

Lemma people_dispatch l e :
  (forall nm, e <> EvSavePerson nm) -> keeps (people_are l) (dispatch e).
Proof.
  intros Hne w. unfold dispatch, settle, sessionClosed.
  destruct e; try (now exfalso; eapply Hne);
    try (destruct (nth_error (pending w) i) as [[r a st| |r|]|]);
    first [ apply people_handleDescribe | apply people_handlePerson
          | apply people_handleRemember | apply people_handleAsk
          | apply people_handleLive
          | apply (keeps_bind (people_are l) (drop_pending i));
              [ apply keeps_drop_pending
              | intros _;
                first [ apply people_resume | apply people_handleLive_stopped
                      | apply people_handleLive_started | apply people_onClose ] ]
          | keeps_tac ].
Qed.

(** An event leaves the remembered people as they are, but for a save in the
    dialog with a name that is not all whitespace, which appends one record
    made of the trimmed name and the pending frame. *)
Lemma step_people e w :
  rememberedPeople (ui (fst (step e w))) = rememberedPeople (ui w) \/
  exists nm f,
    e = EvSavePerson nm /\ whitespace_only nm = false /\ truthy f = true /\
    rememberedPeople (ui (fst (step e w)))
      = (rememberedPeople (ui w) ++ [mkPerson (trim nm) f])%list.
Proof.
  destruct e as [ | | | | | nm | | | | | | | | | ];
    try (left;
         apply (keeps_step (people_are (rememberedPeople (ui w)))
                  (people_askEffect _));
         [ apply people_dispatch; discriminate | reflexivity ]).
  rewrite step_save_person. cbn [fst]. unfold exec.
  destruct (whitespace_only nm) eqn:Hn.
  - left. now rewrite handleSavePerson_discards by now left.
  - destruct (frameToRemember (ui w)) as [f|] eqn:F.
    + destruct (truthy f) eqn:T.
      * right. exists nm, f.
        now rewrite (handleSavePerson_saves (ui w) w nm f F T Hn).
      * left. rewrite handleSavePerson_discards; [reflexivity|].
        right. now rewrite F.
    + left. rewrite handleSavePerson_discards; [reflexivity|].
      right. now rewrite F.
Qed.

Lemma trimEnd_cons c s :
  trimEnd (String c s) =
    match trimEnd s with
    | EmptyString => if isWhiteSpace c then EmptyString else String c EmptyString
    | t => String c t
    end.
Proof. reflexivity. Qed.

Lemma trimEnd_idempotent s : trimEnd (trimEnd s) = trimEnd s.
Proof.
  induction s as [|c s IH]; [reflexivity|].
  rewrite (trimEnd_cons c s). destruct (trimEnd s) as [|d t] eqn:E.
  - destruct (isWhiteSpace c) eqn:W; [reflexivity|].
    rewrite trimEnd_cons. cbn [trimEnd]. now rewrite W.
  - rewrite trimEnd_cons, IH. reflexivity.
Qed.

Lemma trimEnd_keeps_head c s :
  isWhiteSpace c = false -> trimEnd (String c s) = String c (trimEnd s).
Proof.
  intros W. cbn [trimEnd]. destruct (trimEnd s); [now rewrite W | reflexivity].
Qed.

Lemma trimStart_head s :
  trimStart s = "" \/
  exists c t, trimStart s = String c t /\ isWhiteSpace c = false.
Proof.
  induction s as [|c s IH]; [now left|].
  cbn [trimStart]. destruct (isWhiteSpace c) eqn:W; [exact IH|].
  right. now exists c, s.
Qed.

Lemma trim_idempotent s : trim (trim s) = trim s.
Proof.
  unfold trim. destruct (trimStart_head s) as [E|(c & t & E & W)]; rewrite E.
  - reflexivity.
  - rewrite (trimEnd_keeps_head c t W). cbn [trimStart]. rewrite W.
    rewrite <- (trimEnd_keeps_head c t W). apply trimEnd_idempotent.
Qed.

(** X13. The remembered people are append-only: along every sequence of
    events, from any world, the records already stored stay where they are,
    in the same order and unchanged; whatever the run adds comes after
    them. *)
Theorem remembered_people_only_grow (tr : list Event) (w : World) :
  exists suffix,
    rememberedPeople (ui (fst (run tr w)))
      = (rememberedPeople (ui w) ++ suffix)%list.
Proof.
  revert w. induction tr as [|e tr IH]; intros w.
  - exists []. cbn. now rewrite app_nil_r.
  - cbn [run]. pose proof (step_people e w) as S.
    destruct (step e w) as [w1 l1]. cbn [fst] in S.
    destruct (IH w1) as (sfx & E).
    destruct (run tr w1) as [w2 l2]. cbn [fst] in *.
    destruct S as [S|(nm & f & _ & _ & _ & S)]; rewrite E, S.
    + now exists sfx.
    + exists ([mkPerson (trim nm) f] ++ sfx)%list. now rewrite app_assoc.
Qed.

Lemma saved_person_ok nm f :
  whitespace_only nm = false -> truthy f = true ->
  person_ok (mkPerson (trim nm) f).
Proof.
  intros Hn Hf. unfold person_ok. cbn [name imageBase64].
  rewrite truthy_trim, Hn, trim_idempotent. now repeat split.
Qed.

(** X14. Every record ever stored is well formed: in every reachable world
    each remembered person has a name that is not empty and carries no
    whitespace at either end, and a frame that is not empty. *)
Theorem remembered_people_are_well_formed (w : World) :
  reachable w -> Forall person_ok (rememberedPeople (ui w)).
Proof.
  intros [tr <-].
  assert (G : forall tr w0, Forall person_ok (rememberedPeople (ui w0)) ->
                Forall person_ok (rememberedPeople (ui (fst (run tr w0))))).
  { clear tr. induction tr as [|e tr IH]; intros w0 H; [exact H|].
    cbn [run]. pose proof (step_people e w0) as S.
    destruct (step e w0) as [w1 l1]. cbn [fst] in S.
    assert (H1 : Forall person_ok (rememberedPeople (ui w1))).
    { destruct S as [S|(nm & f & _ & Hn & Hf & S)]; rewrite S; [exact H|].
      apply Forall_app. split; [exact H|].
      constructor; [now apply saved_person_ok | constructor]. }
    specialize (IH w1 H1). now destruct (run tr w1) as [w2 l2]. }
  apply G. constructor.
Qed.

(** Alice, typed with blanks around her name, is stored well formed. *)
Lemma remembered_people_are_well_formed_witness :
  Forall person_ok [mkPerson "Alice" "A"].
Proof.
  apply (remembered_people_are_well_formed
           (fst (run [EvWebcam (Some "A"); EvRemember; EvSavePerson "  Alice  "]
                   initialWorld))).
  exists [EvWebcam (Some "A"); EvRemember; EvSavePerson "  Alice  "].
  reflexivity.
Defined.

(** ** The live interval in every reachable world *)

Lemma timer_ret {A} (a : A) : keeps_timer (ret a).
Proof. now intros w. Qed.

Lemma timer_bind {A B} (m : M A) (k : A -> M B) :
  keeps_timer m -> (forall a, keeps_timer (k a)) -> keeps_timer (bind m k).
Proof.
  intros Hm Hk w. unfold bind. specialize (Hm w).
  destruct (m w) as [[a w1] e1]. cbn [fst snd] in Hm.
  specialize (Hk a w1). destruct (k a w1) as [[b w2] e2]. cbn [fst snd] in *.
  destruct Hm as [C I], Hk as [C' I']. split; congruence.
Qed.

Lemma timer_when b m : keeps_timer m -> keeps_timer (when b m).
Proof. intros H. destruct b; [exact H | apply timer_ret]. Qed.

Lemma timer_if_frame f k :
  (forall x, keeps_timer (k x)) -> keeps_timer (if_frame f k).
Proof.
  intros H. unfold if_frame. destruct f as [x|]; [|apply timer_ret].
  destruct (truthy x); [apply H | apply timer_ret].
Qed.

Lemma timer_modify_ui f : keeps_timer (modify_ui f).
Proof. now intros w. Qed.

Lemma timer_emit e : keeps_timer (emit e).
Proof. now intros w. Qed.

Lemma timer_speak t v q : keeps_timer (speak t v q).
Proof. now intros w. Qed.

Lemma timer_await p : keeps_timer (await p).
Proof. now intros w. Qed.

Lemma timer_register p : keeps_timer (register p).
Proof. now intros w. Qed.

Lemma timer_set_isCancelledRef v : keeps_timer (set_isCancelledRef v).
Proof. now intros w. Qed.

Lemma timer_get_isCancelledRef : keeps_timer get_isCancelledRef.
Proof. now intros w. Qed.

Lemma timer_captureFrame : keeps_timer captureFrame.
Proof. now intros w. Qed.

Lemma timer_setTimeout ms : keeps_timer (setTimeout ms).
Proof. now intros w. Qed.

Lemma timer_drop_pending i : keeps_timer (drop_pending i).
Proof. now intros w. Qed.

Lemma timer_set_webcam v : keeps_timer (set_webcam v).
Proof. now intros w. Qed.

Create HintDb timer.
#[local] Hint Resolve timer_ret timer_modify_ui timer_emit timer_speak
  timer_await timer_register timer_set_isCancelledRef
  timer_get_isCancelledRef timer_captureFrame timer_setTimeout
  timer_drop_pending timer_set_webcam : timer.

Ltac timer_tac :=
  repeat first
    [ solve [auto with timer]
    | match goal with
      | |- keeps_timer (if ?b then _ else _) => destruct b
      | |- keeps_timer (match ?o with Fulfilled _ => _ | Rejected => _ end) =>
          destruct o
      end
    | apply timer_bind; [|intros ?]
    | apply timer_when
    | apply timer_if_frame; intros ? ].

(** No handler touches the clock or the interval: the interval is set and
    cleared by the live-feed effect alone. *)
Lemma timer_dispatch e : keeps_timer (dispatch e).
Proof.
  intros w. unfold dispatch, settle, sessionClosed.
  destruct e;
    try (destruct (nth_error (pending w) i) as [[r a st| |r|]|]);
    try (destruct st); try (destruct o);
    match goal with
    | |- clock (snd (fst (?m w))) = _ /\ _ =>
        assert (K : keeps_timer m); [| exact (K w)]
    end;
    unfold handleDescribe, handlePerson, handleRemember, handleSavePerson,
      handleAsk, handleLive, handleStop, processAndSpeak_resume,
      processAndSpeak_catch, processAndSpeak_finally, processAndSpeak,
      handleLive_stopped, handleLive_started, onClose, setRememberedPeople,
      setIsOnline, setSpeechSpeed, setLanguage, setIsProcessing,
      setCurrentAction, setIsLive, setShowRememberModal, setFrameToRemember;
    timer_tac.
Qed.

Lemma step_feed_ok e w : feed_ok w -> feed_ok (fst (step e w)).
Proof.
  intros H. destruct e;
    try (unfold step;
         match goal with
         | |- context [(dispatch ?e ;; _) w] =>
             pose proof (timer_dispatch e w) as T;
             unfold bind; destruct (dispatch e w) as [[u w1] e1];
             cbn [fst snd] in T; destruct T as [Tc Ti];
             destruct (commit_feed 2 (ui w) w1) as (I & L & C);
             unfold exec in I, L, C;
             destruct (commit 3 (ui w) w1) as [[u2 w2] e2];
             cbn [fst snd] in *;
             unfold feed_ok in *; rewrite I, L, C;
             unfold committed_interval, same_live_deps; rewrite Ti, Tc;
             destruct (isLive (ui w)) eqn:Lw, (isLive (ui w1)) eqn:L1;
             cbn [Bool.eqb]; try exact H; try reflexivity;
             repeat split; lia
         end).
  (* time *)
  cbn [step]. clear - H. revert w H.
  induction ms as [|n IH]; intros w H; [exact H|].
  rewrite elapse_S. cbn [fst]. rewrite tick_eq. cbn [fst snd].
  apply IH. unfold feed_ok, tick_interval in *. cbn [intervalId ui clock].
  destruct (intervalId w) as [due|]; [|exact H].
  destruct H as (L & Lo & Hi).
  destruct (due <=? S (clock w)) eqn:E;
    [apply Nat.leb_le in E | apply Nat.leb_gt in E]; repeat split; try lia;
    exact L.
Qed.

Lemma run_feed_ok tr : forall w, feed_ok w -> feed_ok (fst (run tr w)).
Proof.
  induction tr as [|e tr IH]; intros w H; [exact H|].
  cbn [run]. pose proof (step_feed_ok e w H) as S.
  destruct (step e w) as [w1 l1]. specialize (IH w1 S).
  now destruct (run tr w1) as [w2 l2].
Qed.

(** X15. The frame feed runs exactly while the live flag is set. In every
    reachable world the interval is installed if and only if the live flag is
    set, and then its next capture is due within the next 500 ms; so while
    the live flag is down no frame is ever captured or pushed, however long
    one waits. *)
Theorem feed_runs_exactly_while_live (w : World) :
  reachable w ->
  feed_ok w /\
  (isLive (ui w) = false -> forall n, sends (snd (elapse n w)) = []).
Proof.
  intros [tr <-].
  assert (F : feed_ok (fst (run tr initialWorld)))
    by (apply run_feed_ok; reflexivity).
  split; [exact F|]. intros L n.
  apply elapse_without_interval. unfold feed_ok in F.
  destruct (intervalId _) as [due|]; [|reflexivity].
  destruct F as (L' & _). congruence.
Qed.

(** Live mode started and stopped by the global stop: the feed is off. *)
Lemma feed_runs_exactly_while_live_witness :
  let w := fst (run [EvWebcam (Some "A"); EvLive; EvElapse 700;
                     EvDescribe; EvDescribe] initialWorld) in
  isLive (ui w) = false /\ sends (snd (elapse 5000 w)) = [].
Proof.
  intros w. split; [reflexivity|].
  apply (feed_runs_exactly_while_live w); [|reflexivity].
  exists [EvWebcam (Some "A"); EvLive; EvElapse 700; EvDescribe; EvDescribe].
  reflexivity.
Defined.

(** X16. When the teardown awaited by the live intent fails, live mode stays
    on: the rejection of [liveService.stop()] is caught by nothing, the live
    flag and the current action are left set, nothing is said, and the
    interval stays installed. *)
Theorem failed_teardown_leaves_live_on (w : World) (i : nat) :
  nth_error (pending w) i = Some PLiveStop ->
  step (EvSettle i Rejected) w =
    (mkWorld (ui w) (isCancelledRef w) (webcam w) (clock w) (timeouts w)
       (intervalId w) (remove_nth i (pending w)), []).
Proof.
  intros H. unfold step, bind. cbn [dispatch]. unfold settle. rewrite H.
  unfold bind, drop_pending, handleLive_stopped, ret. cbn [fst snd ui].
  now rewrite commit_noop by
    (apply same_ask_deps_refl || apply same_live_deps_refl).
Qed.

(** A live session whose teardown fails keeps pushing frames. *)
Lemma failed_teardown_leaves_live_on_witness :
  let w := fst (run live_session_1700 initialWorld) in
  let w' := fst (step (EvSettle 1 Rejected) w) in
  isLive (ui w') = true /\ currentAction (ui w') = Some "live" /\
  sends (snd (elapse 300 w')) = [(2000, "A")].
Proof.
  intros w w'. subst w'.
  rewrite (failed_teardown_leaves_live_on w 1 eq_refl).
  repeat split.
Defined.

(** ** The dialog, the processing flag and the commit, in general *)

(** X17. The remember dialog is never open on nothing: in every reachable
    world in which the dialog is shown, a captured frame that is not empty is
    pending. The intents, the completions, the stop, the settings and the
    passing of time all keep it so. *)
Theorem open_dialog_holds_a_frame (w : World) :
  reachable w -> showRememberModal (ui w) = true ->
  exists f, frameToRemember (ui w) = Some f /\ truthy f = true.
Proof.
  intros R S. pose proof (reachable_dialog_ok w R S) as H.
  destruct (frameToRemember (ui w)) as [f|]; [|discriminate].
  now exists f.
Qed.

(** The dialog opened on frame A, after a describe call came and went. *)
Lemma open_dialog_holds_a_frame_witness :
  let w := fst (run [EvWebcam (Some "A"); EvRemember; EvWebcam None;
                     EvSetSpeechSpeed 2%Q; EvElapse 10] initialWorld) in
  exists f, frameToRemember (ui w) = Some f /\ truthy f = true.
Proof.
  intros w. apply (open_dialog_holds_a_frame w); [|reflexivity].
  exists [EvWebcam (Some "A"); EvRemember; EvWebcam None;
          EvSetSpeechSpeed 2%Q; EvElapse 10].
  reflexivity.
Defined.

(** X18. As long as live mode is not ended by the close of the session, by
    the completion of the teardown of the live intent or by a failed start,
    a raised processing flag always goes with a current action: every other
    intent, completion, setting change and timer keeps that invariant, from
    the initial state on. *)
Theorem processing_has_action_unless_live_ends (tr : list Event) :
  never_ends_live tr initialWorld = true ->
  processing_ok (ui (fst (run tr initialWorld))).
Proof.
  intros N. apply processing_ok_run; [exact N|].
  intros H. discriminate.
Qed.

(** A describe call dispatched in live mode, stopped and dispatched again. *)
Lemma processing_has_action_unless_live_ends_witness :
  processing_ok
    (ui (fst (run (describe_while_live ++ [EvDescribe; EvDescribe])
                initialWorld))).
Proof.
  apply (processing_has_action_unless_live_ends
           (describe_while_live ++ [EvDescribe; EvDescribe])).
  reflexivity.
Defined.

(** X19. The renders that follow an event come to rest: the ask effect sets
    a state it depends on, yet after two runs of the effects no dependency
    moves any more, so the three rounds the commit is given always suffice
    and further rounds would do nothing, whatever the previous render and
    the world. *)
Theorem effects_settle_in_two_rounds (k : nat) (prev : Render) (w : World) :
  commit (3 + k) prev w = commit 3 prev w /\
  let w1 := exec (runEffects prev (ui w)) w in
  let w2 := exec (runEffects (ui w) (ui w1)) w1 in
  runEffects (ui w1) (ui w2) w2 = (tt, w2, []).
Proof.
  split; [apply commit_fuel|].
  destruct (stable_after_two_rounds prev w) as [A L]. intros w1 w2.
  change (same_ask_deps (ui w1) (ui w2) = true) in A.
  change (same_live_deps (ui w1) (ui w2) = true) in L.
  unfold runEffects, when, bind, ret. now rewrite A, L.
Qed.

(** ** The dispatch of a describe call *)

(** X20. The describe intent, when describe is not current, no call is being
    processed, the camera gives a frame and no question is held by the ask
    effect, speaks the status cue, then makes exactly one remote call, with
    that frame and the language name of the render, lowers the cancellation
    flag, raises the processing flag with 'describe' as the current action,
    and parks the call with the render of the intent. It does so whatever the
    current action was, live included. *)
Theorem describe_dispatches_one_call (w : World) (f : string) :
  currentAction (ui w) <> Some "describe" -> isProcessing (ui w) = false ->
  webcam w = Some f -> truthy f = true -> asking (ui w) = false ->
  step EvDescribe w =
    (mkWorld (with_currentAction (Some "describe")
                (with_isProcessing true (ui w)))
       false (Some f) (clock w) (timeouts w) (intervalId w)
       (pending w ++ [PProcessAndSpeak (ui w) "describe" AwaitAction]),
     [(clock w, Speak "Analyzing the scene..." (voice (language (ui w)))
                  (speechSpeed (ui w)));
      (clock w, DescribeScene f (languageName (language (ui w))))]).
Proof.
  intros Ha Hp Hw Hf Hq. unfold step, bind. cbn [dispatch].
  unfold handleDescribe.
  replace (action_eqb (currentAction (ui w)) (Some "describe")) with false.
  - rewrite Hp. unfold bind, captureFrame, if_frame. rewrite Hw, Hf.
    cbn [fst snd speak emit processAndSpeak bind set_isCancelledRef
         setIsProcessing setCurrentAction modify_ui await app ui
         isCancelledRef webcam clock timeouts intervalId pending].
    rewrite commit_not_asking; [now rewrite Hw | exact Hq | apply Bool.eqb_reflx].
  - symmetry. destruct (action_eqb _ _) eqn:E; [|reflexivity].
    apply action_eqb_eq in E. contradiction.
Qed.

(** The describe intent in live mode. *)
Lemma describe_dispatches_one_call_witness :
  let w := fst (run [EvLive; EvSettle 1 (Fulfilled ""); EvWebcam (Some "A")]
                  initialWorld) in
  currentAction (ui w) = Some "live" /\
  map snd (snd (step EvDescribe w))
    = [Speak "Analyzing the scene..." Zephyr 1%Q;
       DescribeScene "A" "English (US)"].
Proof.
  intros w. split; [reflexivity|].
  assert (Ha : currentAction (ui w) <> Some "describe")
    by (vm_compute; discriminate).
  pose proof (describe_dispatches_one_call w "A" Ha eq_refl eq_refl eq_refl
                eq_refl) as E.
  exact (f_equal (fun x => map snd (snd x)) E).
Defined.

(** ** The live feed over time *)

(** X21. The feed over time. The commit that sees the live flag go up
    installs an interval first due 500 ms later. Over a stretch of time in
    which no event is handled, an installed interval makes a capture every
    500 ms and pushes the frame when there is one, and pushes nothing when
    there is none. The commit that sees the live flag go down clears the
    interval, and without interval nothing is pushed. The global stop lowers
    the flag in the handler itself; the live intent leaves it up until the
    awaited teardown has completed. A live session started at time 0 with
    frame A in front of the camera has pushed it at 500, 1000 and 1500 ms when
    the live intent begins the teardown at 1700 ms. *)
Theorem live_feed_period (w : World) (n : nat) :
  (forall prev, isLive prev = false -> isLive (ui w) = true ->
     intervalId (exec (commit 3 prev) w) = Some (clock w + 500)) /\
  (forall due f, intervalId w = Some due -> clock w < due ->
     webcam w = Some f -> truthy f = true ->
     sends (snd (elapse n w)) = pushes due (clock w + n) f) /\
  (truthy_opt (webcam w) = false -> sends (snd (elapse n w)) = []) /\
  (forall prev, isLive prev = true -> isLive (ui w) = false ->
     intervalId (exec (commit 3 prev) w) = None) /\
  (intervalId w = None -> sends (snd (elapse n w)) = []) /\
  (forall r, isLive r = true ->
     isLive (ui (exec (handleStop r) w)) = false /\
     isLive (ui (exec (handleLive r) w)) = isLive (ui w) /\
     isLive (ui (exec (handleLive_stopped (Fulfilled "")) w)) = false) /\
  snd (run live_session_1700 initialWorld)
    = [(0, StopSpeech); (0, LiveStart Zephyr); (500, SendVideoFrame "A");
       (1000, SendVideoFrame "A"); (1500, SendVideoFrame "A"); (1700, LiveStop)].
Proof.
  repeat split.
  - intros prev Hp Hw. destruct (commit_feed 2 prev w) as (I & _).
    rewrite I. unfold committed_interval, same_live_deps. now rewrite Hp, Hw.
  - intros due f. apply elapse_with_frame.
  - apply elapse_without_frame.
  - intros prev Hp Hw. destruct (commit_feed 2 prev w) as (I & _).
    rewrite I. unfold committed_interval, same_live_deps. now rewrite Hp, Hw.
  - intros H. now apply elapse_without_interval.
  - unfold exec. rewrite handleStop_eq. cbn. unfold stopped_ui. rewrite H.
    now destruct (showRememberModal r).
  - unfold exec, handleLive. now rewrite H.
Qed.

(** The feed at work: the first 1700 ms of a live session with frame A. *)
Lemma live_feed_period_witness :
  let w := fst (run [EvWebcam (Some "A"); EvLive] initialWorld) in
  intervalId w = Some 500 /\
  sends (snd (elapse 1700 w)) = [(500, "A"); (1000, "A"); (1500, "A")].
Proof.
  split; [reflexivity|].
  apply (proj1 (proj2 (live_feed_period
           (fst (run [EvWebcam (Some "A"); EvLive] initialWorld)) 1700))
           500 "A"); [reflexivity | | reflexivity | reflexivity].
  vm_compute. lia.
Defined.

(** ** A stop while the recognition holds a question *)

(** The event of a stop through the intent of the current action, outside
    live mode, while the recognition holds a question. *)
Lemma step_stop_asking e w :
  stops e (ui w) = true -> e <> EvLive -> isLive (ui w) = false ->
  asking (ui w) = true ->
  let ws := exec (handleStop (ui w)) w in
  step e w =
    (asked_world (asked (ui ws)) (asked_world (ui ws) ws),
     stamp (clock w)
       (stop_calls (ui w) ++ ask_calls (ui ws) ws ++ ask_calls (ui ws) ws)).
Proof.
  intros S Hl L A ws.
  assert (D : dispatch e w = handleStop (ui w) w).
  { destruct e; try discriminate; cbn [stops] in S; cbn [dispatch];
      [ unfold handleDescribe | unfold handlePerson | unfold handleAsk
      | contradiction ]; now rewrite S. }
  assert (C : currentAction (ui w) <> None).
  { destruct e; try discriminate; try (exfalso; now apply Hl);
      cbn [stops] in S; apply action_eqb_eq in S; congruence. }
  assert (E : step e w =
              let '(_, w', es) := (handleStop (ui w) ;; commit 3 (ui w)) w in
              (w', stamp (clock w) es)).
  { destruct e; try discriminate; try contradiction;
      unfold step, bind; now rewrite D. }
  rewrite E. unfold bind. subst ws. rewrite handleStop_world, handleStop_eq.
  set (ws := mkWorld _ _ _ _ _ _ _).
  rewrite (commit_asking (ui w) ws).
  - reflexivity.
  - unfold same_live_deps. cbn [ui ws]. unfold stopped_ui. rewrite L.
    destruct (showRememberModal (ui w)); cbn; now rewrite L.
  - unfold same_ask_deps. cbn [ui ws].
    replace (action_eqb (currentAction (ui w))
               (currentAction (stopped_ui (ui w) (ui w)))) with false;
      [apply andb_false_r|].
    symmetry. change (currentAction (stopped_ui (ui w) (ui w))) with (@None string).
    destruct (currentAction (ui w)); [reflexivity | contradiction].
  - cbn [ui ws]. now rewrite asking_stopped_ui.
Qed.

(** X22. A stop does not silence a call while the recognition holds a
    question. When the intent of the current single-shot action runs the
    global stop outside live mode and the hook still reports a finished
    transcript, the render that follows the stop has lost the current action,
    on which the ask effect depends through [processAndSpeak]: the effect
    runs (twice, its own dispatch changing the current action once more), the
    question is spoken and asked again, and the dispatch lowers the
    cancellation flag that the stop had just raised. The result of a call
    that was in flight at the stop is then spoken whenever it arrives, with
    the voice and rate of the render that dispatched it. *)
Theorem stop_asks_held_question_again (e : Event) (w : World) :
  stops e (ui w) = true -> e <> EvLive -> isLive (ui w) = false ->
  asking (ui w) = true ->
  let asks :=
    [Speak (question (transcript (ui w))) (voice (language (ui w)))
       (speechSpeed (ui w));
     AskWithContext (webcam w) (transcript (ui w))
       (languageName (language (ui w)))] in
  snd (step e w) = stamp (clock w) (stop_calls (ui w) ++ asks ++ asks) /\
  isCancelledRef (exec (handleStop (ui w)) w) = true /\
  isCancelledRef (fst (step e w)) = false /\
  forall n i r a text,
    nth_error (pending w) i = Some (PProcessAndSpeak r a AwaitAction) ->
    snd (step (EvSettle i (Fulfilled text)) (fst (run [e; EvElapse n] w)))
      = [(clock w + n, Speak text (voice (language r)) (speechSpeed r))].
Proof.
  intros S Hl L A asks.
  pose proof (step_stop_asking e w S Hl L A) as E. cbv zeta in E.
  rewrite handleStop_world in *.
  rewrite E. cbn [fst snd].
  split; [|split; [reflexivity | split; [reflexivity|]]].
  - f_equal. f_equal. unfold ask_calls, asks. cbn [ui webcam].
    assert (T : transcript (stopped_ui (ui w) (ui w)) = transcript (ui w)
                /\ language (stopped_ui (ui w) (ui w)) = language (ui w)
                /\ speechSpeed (stopped_ui (ui w) (ui w)) = speechSpeed (ui w)).
    { unfold stopped_ui. now destruct (showRememberModal (ui w)), (isLive (ui w)). }
    destruct T as (T1 & T2 & T3). now rewrite T1, T2, T3.
  - intros n i r a text Hi. rewrite run_then_elapse, E. cbn [fst].
    set (w' := asked_world _ _).
    destruct (elapse_frame n w') as (U & _ & P & K).
    pose proof (elapse_flag_stays_down n w' eq_refl) as F.
    set (w2 := fst (elapse n w')) in *.
    rewrite (step_result_spoken i r a text w2); [now rewrite K | | exact F].
    rewrite P. unfold w', asked_world. cbn [pending].
    rewrite <- app_assoc, nth_error_app1; [exact Hi|].
    apply nth_error_Some. now rewrite Hi.
Qed.

(** The question "q" is being answered; the ask intent stops it, and asks it
    again; the answer to the stopped call, 50 ms later, is spoken. *)
Lemma stop_asks_held_question_again_witness :
  let w := fst (run [EvRecognition true ""; EvRecognition false "q"] initialWorld) in
  currentAction (ui w) = Some "ask" /\
  map snd (snd (step EvAsk w))
    = [StopSpeech;
       Speak (question "q") Zephyr 1%Q; AskWithContext None "q" "English (US)";
       Speak (question "q") Zephyr 1%Q; AskWithContext None "q" "English (US)"] /\
  snd (step (EvSettle 0 (Fulfilled "answer")) (fst (run [EvAsk; EvElapse 50] w)))
    = [(50, Speak "answer" Zephyr 1%Q)].
Proof.
  intros w.
  destruct (stop_asks_held_question_again EvAsk w eq_refl ltac:(discriminate)
              eq_refl eq_refl) as (Q & _ & _ & R).
  split; [reflexivity|]. split.
  - rewrite Q. reflexivity.
  - apply (R 50 0 (with_recognition false "q" initialRender) "ask" "answer").
    reflexivity.
Defined.
